(** * El Pais opinion scraper: a shallow embedding and its properties

    The Python sources embedded here are [analyzer.py], [translator.py],
    [scraper.py], [browserstack_runner.py] and [main.py].

    Conventions of the embedding.
    - A Python [str] is a Rocq [string]; its characters are read as the code
      points U+0000..U+00FF (Latin-1), on which [str.lower], [str.isspace],
      [str.split], [str.strip] and the regular expression class [\s] are
      modelled exactly.
    - A Python [dict] or [Counter] is a [gmap], a [set] a [gset].
    - A call that may raise returns [Res A]: [Ok a] for a normal return,
      [Raise e] for an exception of class [Exception] whose [str(e)] is [e].
    - The browser, the network and the file system are oracles: records and
      functions giving the outcome of each external call.
    - [time.sleep] and [traceback.print_exc] are left out. So is [print],
      taken not to raise, with one exception: the two prints that end the
      [try] of [translate_titles] (lines 57 and 58). They come after the
      append, they are the first to print what the translation service
      answered, and the function catches their failure and appends again.
      The prints of its [except] clauses repeat the title, printed before,
      and the message of the exception.
    - A value whose type is not fixed by the code (the ["trans"] field of the
      translation service's answer) is a [PyVal]: a [str] or something
      else. *)

From Stdlib Require Import Ascii String.
From stdpp Require Import gmap strings list fin_maps pretty sorting.

Local Open Scope string_scope.
Local Open Scope list_scope.

(** ** Python primitives *)

Module Py.

(** The outcome of a call: a value, or an exception carrying its message. *)
Inductive Res (A : Type) : Type :=
| Ok (a : A)
| Raise (e : string).
Global Arguments Ok {A} a.
Global Arguments Raise {A} e.

Definition bind {A B} (r : Res A) (k : A → Res B) : Res B :=
  match r with
  | Ok a => k a
  | Raise e => Raise e
  end.

(** [try: body / except Exception: handler]. *)
Definition try_except {A} (body : Res A) (handler : string → Res A) : Res A :=
  match body with
  | Ok a => Ok a
  | Raise e => handler e
  end.

Definition raised {A} (r : Res A) : bool :=
  match r with
  | Ok _ => false
  | Raise _ => true
  end.

Global Instance Res_ret : MRet Res := @Ok.
Global Instance Res_bind : MBind Res := λ A B k r, bind r k.

(** [str.isspace] on one character (also the class [\s] of [re] and the
    separators of [str.split()] and [str.strip()]). *)
Definition isspace (c : ascii) : bool :=
  let n := nat_of_ascii c in
  (((9 <=? n) && (n <=? 13)) || ((28 <=? n) && (n <=? 32))
   || (n =? 133) || (n =? 160))%nat.

(** [str.lower] on one character. *)
Definition lower_char (c : ascii) : ascii :=
  let n := nat_of_ascii c in
  if (((65 <=? n) && (n <=? 90))
      || ((192 <=? n) && (n <=? 222) && negb (n =? 215)))%nat
  then ascii_of_nat (n + 32)
  else c.

(** [s.lower()] *)
Fixpoint lower (s : string) : string :=
  match s with
  | EmptyString => EmptyString
  | String c s' => String (lower_char c) (lower s')
  end.

(** The class [a-zA-Z]. *)
Definition is_ascii_letter (c : ascii) : bool :=
  let n := nat_of_ascii c in
  (((97 <=? n) && (n <=? 122)) || ((65 <=? n) && (n <=? 90)))%nat.

(** [re.sub(cls, "", s)] for a one-character class [cls]: the characters
    of [s] matched by the class are deleted. *)
Fixpoint re_sub_delete (cls : ascii → bool) (s : string) : string :=
  match s with
  | EmptyString => EmptyString
  | String c s' =>
      if cls c then re_sub_delete cls s' else String c (re_sub_delete cls s')
  end.

(** [sep.join(l)] *)
Definition join (sep : string) (l : list string) : string :=
  String.concat sep l.

(** [s.split()]: a left-to-right scan; [cur] is the token being read. *)
Definition flush (cur : string) : list string :=
  match cur with
  | EmptyString => []
  | _ => [cur]
  end.

Fixpoint split_from (cur : string) (s : string) : list string :=
  match s with
  | EmptyString => flush cur
  | String c s' =>
      if isspace c then flush cur ++ split_from EmptyString s'
      else split_from (cur +:+ String c EmptyString) s'
  end.

Definition split (s : string) : list string := split_from EmptyString s.

(** [s.strip()] *)
Fixpoint lstrip (s : string) : string :=
  match s with
  | EmptyString => EmptyString
  | String c s' => if isspace c then lstrip s' else s
  end.

Fixpoint rstrip (s : string) : string :=
  match s with
  | EmptyString => EmptyString
  | String c s' =>
      match rstrip s' with
      | EmptyString => if isspace c then EmptyString else String c EmptyString
      | r => String c r
      end
  end.

Definition strip (s : string) : string := rstrip (lstrip s).

(** [sub in s] on strings. *)
Fixpoint contains (sub s : string) : bool :=
  String.prefix sub s ||
  match s with
  | EmptyString => false
  | String _ s' => contains sub s'
  end.

(** A value that is a [str], or a value of another type (named by its
    type, as in Python's messages). *)
Inductive PyVal : Type :=
| PStr (s : string)
| PNonStr (type_name : string).

(** [sep.join(items)] on arbitrary values: [TypeError] at the first item
    that is not a [str]. [i] is the index of the first item of [items]. *)
Fixpoint strings_from (i : nat) (items : list PyVal) : Res (list string) :=
  match items with
  | [] => Ok []
  | PStr s :: rest =>
      match strings_from (S i) rest with
      | Ok l => Ok (s :: l)
      | Raise e => Raise e
      end
  | PNonStr ty :: _ =>
      Raise ("sequence item " +:+ pretty i +:+ ": expected str instance, "
             +:+ ty +:+ " found")
  end.

(** Truth value of an optional string ([None] and [""] are false). *)
Definition truthy (o : option string) : bool :=
  match o with
  | Some (String _ _) => true
  | _ => false
  end.

End Py.

(** ** analyzer.py *)

Module analyzer.
Import Py.

Definition STOP_WORDS : gset string :=
  list_to_set
    [ "the"; "a"; "an"; "and"; "or"; "but"; "in"; "on"; "at"; "to"; "for";
      "of"; "with"; "by"; "from"; "is"; "it"; "its"; "as"; "are"; "was";
      "were"; "be"; "been"; "has"; "have"; "had"; "do"; "does"; "did";
      "will"; "would"; "could"; "should"; "may"; "might"; "shall"; "can";
      "this"; "that"; "these"; "those"; "not"; "no"; "nor"; "so"; "if";
      "than"; "too"; "very"; "just"; "about"; "up"; "out"; "into"; "over";
      "after"; "before"; "between"; "under"; "above"; "such"; "each";
      "which"; "who"; "whom"; "what"; "when"; "where"; "why"; "how";
      "all"; "both"; "few"; "more"; "most"; "other"; "some"; "any";
      "he"; "she"; "they"; "we"; "you"; "i"; "me"; "him"; "her"; "us";
      "them"; "my"; "your"; "his"; "our"; "their" ].

(** [Counter(iterable)]: each element bumps its own count, starting at 0. *)
Definition Counter_add (counts : gmap string nat) (w : string) : gmap string nat :=
  <[w := S (default 0 (counts !! w))]> counts.

Definition Counter (ws : list string) : gmap string nat :=
  foldl Counter_add ∅ ws.

(** The pattern [[^a-zA-Z\s]]. *)
Definition not_letter_nor_space (c : ascii) : bool :=
  negb (is_ascii_letter c || isspace c).

(** Lines 40 to 47: the tokens that are counted. *)
Definition meaningful_words (headers : list string) : list string :=
  let all_text := lower (join " " headers) in
  let clean_text := re_sub_delete not_letter_nor_space all_text in
  let words := split clean_text in
  filter (λ w, (w ∉ STOP_WORDS) ∧ (1 < String.length w)%nat) words.

Definition find_repeated_words (headers : list string) : gmap string nat :=
  let counts := Counter (meaningful_words headers) in
  filter (λ kv, 2 < kv.2) counts.

(** [find_repeated_words] called on a list of arbitrary values: the join of
    line 40 raises unless every header is a [str]. *)
Definition find_repeated_words_of (headers : list PyVal)
    : Res (gmap string nat) :=
  hs ← strings_from 0 headers;
  mret (find_repeated_words hs).

End analyzer.

(** ** translator.py *)

Module translator.
Import Py.

(** The response object of [requests.post]. [json] is [resp.json()] read as
    a dict; it raises on a body that is not JSON, and stands for the
    exception of [result.get] when the JSON value is not an object. *)
Record Response := {
  raise_for_status : Res unit;
  json : Res (gmap string PyVal);
}.

(** What the [try] of [translate_titles] prints after its append: line 57,
    the numbered original title, and line 58, the translation. *)
Inductive Line : Type :=
| TitleLine (title : string)
| TranslationLine (eng_title : PyVal).

Section with_network.
(** [RAPIDAPI_KEY], read from the environment when the module loads. *)
Variable RAPIDAPI_KEY : string.
(** [requests.post(API_URL, json=body, ...)]: the outcome of the request
    made for the title at position [i], with JSON body [body]. *)
Variable requests_post : nat → gmap string string → Res Response.
(** [print(...)] of lines 57 and 58 in the turn for the title at position
    [i]: it raises when the console cannot take the line. *)
Variable print : nat → Line → Res unit.

(** Lines 42 to 54: the body of the [try] up to the value appended. *)
Definition request_translation (src dest : string) (i : nat) (title : string)
  : Res PyVal :=
  let body : gmap string string :=
    {[ "from" := src; "to" := dest; "text" := title ]} in
  resp ← requests_post i body;
  _ ← raise_for_status resp;
  result ← json resp;
  (* result.get("trans", title) *)
  mret (default (PStr title) (result !! "trans")).

(** Lines 57 and 58: the two prints that end the [try]. *)
Definition print_translation (i : nat) (title : string) (eng_title : PyVal)
  : Res unit :=
  _ ← print i (TitleLine title);
  print i (TranslationLine eng_title).

(** Lines 41 to 66, one turn of the loop: the [try] and its [except]
    clauses, on the list [translated] being appended to. The [try] appends
    the translation (line 55) before it prints; both [except] clauses append
    the original, whatever of the [try] raised, so a print that raises
    leaves the translation and the original in the list. *)
Definition translate_step (src dest : string) (i : nat) (title : string)
    (translated : list PyVal) : list PyVal :=
  match request_translation src dest i title with
  | Ok eng_title =>
      let translated := translated ++ [eng_title] in
      match print_translation i title eng_title with
      | Ok _ => translated
      | Raise _ => translated ++ [PStr title]
      end
  | Raise _ => translated ++ [PStr title]
  end.

(** The [for] loop over [enumerate(titles)]. *)
Fixpoint translate_loop (src dest : string) (i : nat) (titles : list string)
    (translated : list PyVal) : list PyVal :=
  match titles with
  | [] => translated
  | title :: rest =>
      translate_loop src dest (S i) rest
        (translate_step src dest i title translated)
  end.

Definition translate_titles (titles : list string) (src dest : string)
  : list PyVal :=
  match RAPIDAPI_KEY with
  | EmptyString => PStr <$> titles
  | _ => translate_loop src dest 0 titles []
  end.

End with_network.

End translator.

(** ** scraper.py *)

Module scraper.
Import Py.

(** A Selenium [WebElement]: the outcome of reading [.text], of
    [.get_attribute(name)] and of a nested [.find_element(selector)]. *)
#[local] Unset Elimination Schemes.
Inductive WebElement : Type := mkWebElement {
  text : Res string;
  get_attribute : string → Res (option string);
  find_element_in : string → Res WebElement;
}.
#[local] Set Elimination Schemes.

(** What the driver answers once a page is loaded. Locators are keyed by
    their selector text, for [By.CSS_SELECTOR], [By.TAG_NAME] and [By.ID]
    alike. *)
Record Page := {
  (** [driver.find_element(by, selector)] *)
  find_element : string → Res WebElement;
  (** [driver.find_elements(by, selector)] *)
  find_elements : string → Res (list WebElement);
  (** [WebDriverWait(driver, t).until(EC.presence_of_element_located(..))] *)
  wait_presence : string → Res WebElement;
  (** [WebDriverWait(driver, 5).until(EC.element_to_be_clickable(..))],
      then the outcome of [btn.click()] *)
  wait_clickable : string → Res (Res unit);
}.

(** A Selenium [WebDriver] session. *)
Record WebDriver := {
  (** [driver.get(url)]: the page then loaded, or the exception *)
  get : string → Res Page;
  execute_script : string → Res unit;
  quit : Res unit;
}.

(** The file system and the image server. *)
Record HttpResponse := {
  raise_for_status : Res unit;
  (** [resp.headers.get(name)] *)
  headers_get : string → option string;
  (** [open(filepath, "wb")] and the writes of every chunk of
      [resp.iter_content(8192)] *)
  save_to : string → Res unit;
}.

Record World := {
  IMAGE_DIR : string;
  (** [os.makedirs(IMAGE_DIR, exist_ok=True)] *)
  makedirs : Res unit;
  (** [requests.get(img_url, timeout=15, stream=True)] *)
  requests_get : string → Res HttpResponse;
}.

(** The dict built by [scrape_single_article]. *)
Record Article := {
  url : string;
  title : string;
  content : string;
  image_path : option string;
}.

Definition ensure_image_dir (w : World) : Res unit := makedirs w.

Definition accept_cookies (page : Page) : unit :=
  match
    btn ← wait_clickable page "didomi-notice-agree-button";
    btn
  with
  | Ok _ => tt
  | Raise _ => tt
  end.

Definition check_language (page : Page) : Res bool :=
  html ← find_element page "html";
  attr ← get_attribute html "lang";
  (* html.get_attribute("lang") or "" *)
  let lang := if truthy attr then default "" attr else "" in
  mret (String.prefix "es" lang).

(** [if href and href not in links: links.append(href)], and whether the
    loop then breaks. *)
Definition add_link (num_articles : nat) (href : option string)
    (links : list string) : list string * bool :=
  match href with
  | Some h =>
      if truthy href && negb (bool_decide (h ∈ links)) then
        let links' := links ++ [h] in
        (links', (num_articles <=? length links')%nat)
      else (links, false)
  | None => (links, false)
  end.

(** Lines 78 to 87: an exception inside the loop body skips the element. *)
Fixpoint primary_loop (num_articles : nat) (articles : list WebElement)
    (links : list string) : list string :=
  match articles with
  | [] => links
  | art :: rest =>
      match
        a_tag ← find_element_in art "h2 a";
        get_attribute a_tag "href"
      with
      | Ok href =>
          let '(links', break) := add_link num_articles href links in
          if break then links' else primary_loop num_articles rest links'
      | Raise _ => primary_loop num_articles rest links
      end
  end.

(** Lines 95 to 100: the [try] is around the loop, an exception ends it. *)
Fixpoint fallback_loop (num_articles : nat) (all_h2_links : list WebElement)
    (links : list string) : list string :=
  match all_h2_links with
  | [] => links
  | a :: rest =>
      match get_attribute a "href" with
      | Ok href =>
          let '(links', break) := add_link num_articles href links in
          if break then links' else fallback_loop num_articles rest links'
      | Raise _ => links
      end
  end.

(** The links after the primary method (lines 73 to 89). *)
Definition primary_links (page : Page) (num_articles : nat) : list string :=
  match find_elements page "article" with
  | Ok articles => primary_loop num_articles articles []
  | Raise _ => []
  end.

(** The links after the fallback (lines 92 to 102). *)
Definition with_fallback (page : Page) (num_articles : nat)
    (links : list string) : list string :=
  if (length links <? num_articles)%nat then
    match find_elements page "h2 a[href*='/opinion/']" with
    | Ok all_h2_links => fallback_loop num_articles all_h2_links links
    | Raise _ => links
    end
  else links.

Definition get_article_links (driver : WebDriver) (num_articles : nat)
    : Res (list string) :=
  page ← get driver "https://elpais.com/opinion/";
  let _ := accept_cookies page in
  _ ← check_language page;
  let links := primary_links page num_articles in
  let links := with_fallback page num_articles links in
  (* links[:num_articles] *)
  mret (take num_articles links).

(** Lines 173 to 201. [ensure_image_dir] is called before the [try]. *)
Definition file_extension (ctype : string) : string :=
  if contains "png" ctype then "png"
  else if contains "webp" ctype then "webp"
  else "jpg".

(** [f"article_{idx + 1}_cover.{ext}"] *)
Definition cover_filename (idx : nat) (ext : string) : string :=
  "article_" +:+ pretty (idx + 1)%nat +:+ "_cover." +:+ ext.

(** [os.path.join(IMAGE_DIR, filename)] on POSIX paths; [IMAGE_DIR] is the
    non-empty path of the [images] folder and ends in no separator. *)
Definition path_join (dir filename : string) : string :=
  dir +:+ "/" +:+ filename.

Definition download_image (w : World) (img_url : string) (idx : nat)
    : Res (option string) :=
  _ ← ensure_image_dir w;
  try_except
    (resp ← requests_get w img_url;
     _ ← raise_for_status resp;
     let ctype := default "" (headers_get resp "Content-Type") in
     let ext := file_extension ctype in
     let filename := cover_filename idx ext in
     let filepath := path_join (IMAGE_DIR w) filename in
     _ ← save_to resp filepath;
     mret (Some filepath))
    (λ _, mret None).

(** [h1.text.strip()] *)
Definition stripped_text (h1 : WebElement) : Res string :=
  t ← text h1;
  mret (strip t).

(** Lines 127 to 141: the nested [try] blocks that set [data["title"]]. *)
Definition extract_title (page : Page) : string :=
  match h1 ← wait_presence page "article header h1"; stripped_text h1 with
  | Ok t => t
  | Raise _ =>
      match h1 ← find_element page "h1.a_t"; stripped_text h1 with
      | Ok t => t
      | Raise _ =>
          match h1 ← find_element page "h1"; stripped_text h1 with
          | Ok t => t
          | Raise _ => "(could not extract title)"
          end
      end
  end.

(** [[p.text.strip() for p in paragraphs if p.text.strip()]] *)
Fixpoint text_parts (paragraphs : list WebElement) : Res (list string) :=
  match paragraphs with
  | [] => mret []
  | p :: rest =>
      t ← stripped_text p;
      match t with
      | EmptyString => text_parts rest
      | _ =>
          t' ← stripped_text p;
          parts ← text_parts rest;
          mret (t' :: parts)
      end
  end.

(** Lines 144 to 158. *)
Definition extract_content (page : Page) : string :=
  match
    paragraphs ← find_elements page
      ("article .a_c p, article .article_body p, " +:+
       "article [data-dtm-region='articulo_cuerpo'] p");
    paragraphs ← (match paragraphs with
                  | [] => find_elements page "article p"
                  | _ => mret paragraphs
                  end);
    parts ← text_parts paragraphs;
    mret (join (String (ascii_of_nat 10) EmptyString) parts)
  with
  | Ok c => c
  | Raise _ => "(could not extract content)"
  end.

(** Lines 161 to 168. *)
Definition extract_image (w : World) (page : Page) (idx : nat) : option string :=
  match
    img ← find_element page "article figure img, article .a_m_w img";
    img_url ← get_attribute img "src";
    if truthy img_url then download_image w (default "" img_url) idx
    else mret None
  with
  | Ok path => path
  | Raise _ => None
  end.

Definition scrape_single_article (w : World) (driver : WebDriver)
    (url : string) (idx : nat) : Res Article :=
  page ← get driver url;
  mret {| url := url;
          title := extract_title page;
          content := extract_content page;
          image_path := extract_image w page idx |}.

(** The loop of [scrape_articles] over [enumerate(article_urls)]. *)
Fixpoint scrape_loop (w : World) (driver : WebDriver) (i : nat)
    (article_urls : list string) (results : list Article) : Res (list Article) :=
  match article_urls with
  | [] => mret results
  | url :: rest =>
      article ← scrape_single_article w driver url i;
      scrape_loop w driver (S i) rest (results ++ [article])
  end.

Definition scrape_articles (w : World) (driver : WebDriver) (count : nat)
    : Res (list Article) :=
  article_urls ← get_article_links driver count;
  scrape_loop w driver 0 article_urls [].

End scraper.

(** ** browserstack_runner.py *)

Module browserstack_runner.
Import Py scraper.

(** One entry of [BROWSERS]. *)
Record BrowserConfig := {
  name : string;
  is_mobile : bool;
  bstack_options : gmap string string;
}.

Definition BROWSERS : list BrowserConfig :=
  [ {| name := "Chrome on Windows 11"; is_mobile := false;
       bstack_options :=
         {[ "os" := "Windows"; "osVersion" := "11"; "browserName" := "Chrome";
            "browserVersion" := "latest";
            "sessionName" := "ElPais_Chrome_Win11";
            "buildName" := "ElPais Opinion Scraper" ]} |};
    {| name := "Safari on macOS Ventura"; is_mobile := false;
       bstack_options :=
         {[ "os" := "OS X"; "osVersion" := "Ventura"; "browserName" := "Safari";
            "browserVersion" := "latest";
            "sessionName" := "ElPais_Safari_macOS";
            "buildName" := "ElPais Opinion Scraper" ]} |};
    {| name := "Firefox on Windows 10"; is_mobile := false;
       bstack_options :=
         {[ "os" := "Windows"; "osVersion" := "10"; "browserName" := "Firefox";
            "browserVersion" := "latest";
            "sessionName" := "ElPais_Firefox_Win10";
            "buildName" := "ElPais Opinion Scraper" ]} |};
    {| name := "Samsung Galaxy S23 (Chrome)"; is_mobile := true;
       bstack_options :=
         {[ "deviceName" := "Samsung Galaxy S23"; "osVersion" := "13.0";
            "browserName" := "Chrome";
            "sessionName" := "ElPais_Chrome_GalaxyS23";
            "buildName" := "ElPais Opinion Scraper" ]} |};
    {| name := "iPhone 15 (Safari)"; is_mobile := true;
       bstack_options :=
         {[ "deviceName" := "iPhone 15"; "osVersion" := "17";
            "browserName" := "Safari";
            "sessionName" := "ElPais_Safari_iPhone15";
            "buildName" := "ElPais Opinion Scraper" ]} |} ].

Inductive OptionsClass := SafariOptions | FirefoxOptions | ChromeOptions.

(** What a worker sees of the outside: credentials, the BrowserStack hub,
    the file system and image server, and the translation service. *)
Record Env := {
  BS_USER : string;
  BS_KEY : string;
  (** [webdriver.Remote(command_executor=BS_HUB, options=options)], from the
      class of [options] and its ["bstack:options"] capability *)
  Remote : OptionsClass → gmap string string → Res WebDriver;
  world : World;
  RAPIDAPI_KEY : string;
  requests_post : nat → gmap string string → Res translator.Response;
  (** the console, for the lines [translate_titles] prints in its [try] *)
  print : nat → translator.Line → Res unit;
}.

(** [d[k]], raising [KeyError] on a missing key. *)
Definition getitem (d : gmap string string) (k : string) : Res string :=
  match d !! k with
  | Some v => Ok v
  | None => Raise ("'" +:+ k +:+ "'")
  end.

(** Lines 99 to 107. *)
Definition options_class (opts : gmap string string) : OptionsClass :=
  let browser_name := default "Chrome" (opts !! "browserName") in
  if bool_decide (browser_name = "Safari") then SafariOptions
  else if bool_decide (browser_name = "Firefox") then FirefoxOptions
  else ChromeOptions.

(** Lines 110 to 124: the dict passed to [options.set_capability]. *)
Definition bstack_caps (user key : string) (browser_config : BrowserConfig)
    : Res (gmap string string) :=
  let opts := bstack_options browser_config in
  let caps : gmap string string :=
    {[ "userName" := user;
       "accessKey" := key;
       "sessionName" := default "" (opts !! "sessionName");
       "buildName" := default "" (opts !! "buildName") ]} in
  if is_mobile browser_config then
    deviceName ← getitem opts "deviceName";
    let caps := <["deviceName" := deviceName]> caps in
    osVersion ← getitem opts "osVersion";
    mret (<["osVersion" := osVersion]> caps)
  else
    let caps := <["os" := default "" (opts !! "os")]> caps in
    let caps := <["osVersion" := default "" (opts !! "osVersion")]> caps in
    mret (<["browserVersion" := default "latest" (opts !! "browserVersion")]> caps).

Definition create_driver (env : Env) (browser_config : BrowserConfig)
    : Res WebDriver :=
  let options := options_class (bstack_options browser_config) in
  caps ← bstack_caps (BS_USER env) (BS_KEY env) browser_config;
  Remote env options caps.

(** The dict returned by [run_single_browser]. *)
Record RunResult := {
  browser : string;
  status : string;
  reason : string;
}.

(** The calls of [run_single_browser] whose order matters. *)
Inductive Event :=
| CreateDriver
| ScrapeArticles
| TranslateTitles (titles : list string)
| FindRepeatedWords (titles : list PyVal)
| ExecuteScript (script : string)
| Quit.

(** The local variables of [run_single_browser], and the calls made so far. *)
Record Frame := {
  loc_driver : option WebDriver;
  loc_status : string;
  loc_reason : string;
  trace : list Event;
}.

(** A statement: it may raise, and what it assigned before stays assigned. *)
Definition Stmt (A : Type) : Type := Frame → Res A * Frame.

Global Instance Stmt_ret : MRet Stmt := λ A a f, (Ok a, f).
Global Instance Stmt_bind : MBind Stmt := λ A B k m f,
  match m f with
  | (Ok a, f') => k a f'
  | (Raise e, f') => (Raise e, f')
  end.

(** An external call, recorded in the trace. *)
Definition call {A} (ev : Event) (outcome : Res A) : Stmt A := λ f,
  (outcome, {| loc_driver := loc_driver f; loc_status := loc_status f;
               loc_reason := loc_reason f; trace := trace f ++ [ev] |}).

Definition set_driver (d : WebDriver) : Stmt unit := λ f,
  (Ok tt, {| loc_driver := Some d; loc_status := loc_status f;
             loc_reason := loc_reason f; trace := trace f |}).

Definition set_status (s : string) : Stmt unit := λ f,
  (Ok tt, {| loc_driver := loc_driver f; loc_status := s;
             loc_reason := loc_reason f; trace := trace f |}).

Definition set_reason (r : string) : Stmt unit := λ f,
  (Ok tt, {| loc_driver := loc_driver f; loc_status := loc_status f;
             loc_reason := r; trace := trace f |}).

Definition locals : Stmt Frame := λ f, (Ok f, f).

(** [try: body / except Exception as e: handler(e)] *)
Definition try_catch {A} (body : Stmt A) (handler : string → Stmt A) : Stmt A :=
  λ f, match body f with
       | (Ok a, f') => (Ok a, f')
       | (Raise e, f') => handler e f'
       end.

(** [try: body / finally: final]: [final] runs on every exit of [body]; an
    exception of [final] replaces the outcome of [body]. *)
Definition try_finally {A} (body : Stmt A) (final : Stmt unit) : Stmt A :=
  λ f, let '(r, f') := body f in
       match final f' with
       | (Ok _, f'') => (r, f'')
       | (Raise e, f'') => (Raise e, f'')
       end.

(** [s.replace('"', '\\"')] *)
Fixpoint escape_quotes (s : string) : string :=
  match s with
  | EmptyString => EmptyString
  | String c s' =>
      if bool_decide (c = "034"%char)
      then String "\" (String "034" (escape_quotes s'))
      else String c (escape_quotes s')
  end.

Definition dq : string := String "034" EmptyString.

(** Lines 172 to 176: the argument of [driver.execute_script]. *)
Definition status_script (status reason : string) : string :=
  "browserstack_executor: {" +:+ dq +:+ "action" +:+ dq +:+ ": " +:+ dq
  +:+ "setSessionStatus" +:+ dq +:+ ", " +:+ dq +:+ "arguments" +:+ dq
  +:+ ": {" +:+ dq +:+ "status" +:+ dq +:+ ": " +:+ dq +:+ status +:+ dq
  +:+ ", " +:+ dq +:+ "reason" +:+ dq +:+ ": " +:+ dq
  +:+ escape_quotes reason +:+ dq +:+ "}}".

(** Lines 146 to 162: the body of the [try]. *)
Definition pipeline (env : Env) (browser_config : BrowserConfig) : Stmt unit :=
  driver ← call CreateDriver (create_driver env browser_config);
  _ ← set_driver driver;
  articles ← call ScrapeArticles (scrape_articles (world env) driver 5);
  match articles with
  | _ :: _ =>
      let titles_spanish := map title articles in
      titles_english ← call (TranslateTitles titles_spanish)
        (Ok (translator.translate_titles (RAPIDAPI_KEY env) (requests_post env)
               (print env) titles_spanish "es" "en"));
      repeated ← call (FindRepeatedWords titles_english)
        (analyzer.find_repeated_words_of titles_english);
      _ ← set_status "passed";
      set_reason ("Scraped " +:+ pretty (length articles)
                  +:+ " articles successfully")
  | [] => set_reason "Could not scrape any articles"
  end.

(** Lines 168 to 179: the [finally] block. *)
Definition report_and_close : Stmt unit :=
  f ← locals;
  match loc_driver f with
  | Some driver =>
      _ ← try_catch
            (call (ExecuteScript (status_script (loc_status f) (loc_reason f)))
               (execute_script driver
                  (status_script (loc_status f) (loc_reason f))))
            (λ _, mret tt);
      call Quit (quit driver)
  | None => mret tt
  end.

Definition run_single_browser_stmt (env : Env) (browser_config : BrowserConfig)
    : Stmt RunResult :=
  let name := name browser_config in
  _ ← try_finally
        (try_catch (pipeline env browser_config) (λ e, set_reason e))
        report_and_close;
  f ← locals;
  mret {| browser := name; status := loc_status f; reason := loc_reason f |}.

(** The frame on entry: [driver = None], [status = "failed"], [reason = ""]. *)
Definition entry : Frame :=
  {| loc_driver := None; loc_status := "failed"; loc_reason := "";
     trace := [] |}.

(** The outcome of [run_single_browser] and the calls it made. *)
Definition run_single_browser (env : Env) (browser_config : BrowserConfig)
    : Res RunResult * list Event :=
  let '(r, f) := run_single_browser_stmt env browser_config entry in
  (r, trace f).

(** A future of the pool: its identity, and the outcome of
    [future.result()] once it is done. *)
Record Future := {
  fid : nat;
  result : Res RunResult;
}.

(** [pool.submit(run_single_browser, b)] for the [i]-th entry: every worker
    runs in a thread of its own, against what it sees of the outside. *)
Definition submit (envs : nat → Env) (i : nat) (b : BrowserConfig) : Future :=
  {| fid := i; result := (run_single_browser (envs i) b).1 |}.

Definition submit_all (envs : nat → Env) (browsers : list BrowserConfig)
    : list Future :=
  imap (submit envs) browsers.

(** Lines 201 to 204: the dict from futures (by identity) to names. *)
Definition future_to_name (browsers : list BrowserConfig) : gmap nat string :=
  map_seq 0 (name <$> browsers).

(** Lines 206 to 216: the loop over [as_completed(future_to_name)]. *)
Fixpoint collect (names : gmap nat string) (completed : list Future)
    (results : list RunResult) : Res (list RunResult) :=
  match completed with
  | [] => mret results
  | future :: rest =>
      name ← match names !! fid future with
             | Some n => Ok n
             | None => Raise "KeyError"
             end;
      let results' :=
        match result future with
        | Ok r => results ++ [r]
        | Raise e =>
            results ++ [ {| browser := name; status := "error"; reason := e |} ]
        end in
      collect names rest results'
  end.

(** [run_all_browsers] over a list of targets. [as_completed] is the order in
    which the pool hands the futures back. *)
Definition run_all (browsers : list BrowserConfig) (envs : nat → Env)
    (as_completed : list Future → list Future) : Res (list RunResult) :=
  let futures := submit_all envs browsers in
  collect (future_to_name browsers) (as_completed futures) [].

Definition run_all_browsers (envs : nat → Env)
    (as_completed : list Future → list Future) : Res (list RunResult) :=
  run_all BROWSERS envs as_completed.

(** What the orchestrator owes target [i]: the worker's own result, or an
    ["error"] result carrying the target's name when the worker raised. *)
Definition result_for (envs : nat → Env) (i : nat) (b : BrowserConfig)
    : RunResult :=
  match (run_single_browser (envs i) b).1 with
  | Ok r => r
  | Raise e => {| browser := name b; status := "error"; reason := e |}
  end.

End browserstack_runner.

(** ** The analyzer as the specification words it *)

Module analyzer_spec.
Import Py analyzer.

(** Number of occurrences of [w] in [ws]. *)
Definition occurrences (w : string) (ws : list string) : nat :=
  length (filter (λ x, x = w) ws).

Definition basic_latin_letter (c : ascii) : bool :=
  bool_decide (c ∈ list_ascii_of_string
                     "abcdefghijklmnopqrstuvwxyzABCDEFGHIJKLMNOPQRSTUVWXYZ").

(** Keep the characters satisfying [keep], delete the others. *)
Fixpoint keep_only (keep : ascii → bool) (s : string) : string :=
  match s with
  | EmptyString => EmptyString
  | String c s' =>
      if keep c then String c (keep_only keep s') else keep_only keep s'
  end.

(** Lowercase the joined headers, delete every character outside basic
    Latin letters and whitespace, split on whitespace, discard stop-words
    and tokens of length 1. *)
Definition spec_tokens (headers : list string) : list string :=
  let lowered := lower (join " " headers) in
  let kept := keep_only (λ c, basic_latin_letter c || isspace c) lowered in
  filter (λ w, (w ∉ STOP_WORDS) ∧ String.length w ≠ 1%nat) (split kept).

(** The words of one header, before stop-words are filtered. *)
Definition header_words (h : string) : list string :=
  split (re_sub_delete not_letter_nor_space (lower h)).

End analyzer_spec.

(** ** The translation of a title as the specification words it *)

Module translator_spec.
Import Py translator.

(** The translation the service gives for the title at position [i]: the
    ["trans"] field of the JSON answer; none on an HTTP error status, on a
    network or decoding error, or when the field is missing. *)
Definition translation_of (requests_post : nat → gmap string string → Res Response)
    (src dest : string) (i : nat) (title : string) : option PyVal :=
  match requests_post i {[ "from" := src; "to" := dest; "text" := title ]} with
  | Raise _ => None
  | Ok resp =>
      match raise_for_status resp with
      | Raise _ => None
      | Ok _ =>
          match json resp with
          | Raise _ => None
          | Ok result => result !! "trans"
          end
      end
  end.

(** What the turn for the title at position [i] appends first: the
    translation, or the original when the request failed. *)
Definition appended (requests_post : nat → gmap string string → Res Response)
    (src dest : string) (i : nat) (title : string) : PyVal :=
  match request_translation requests_post src dest i title with
  | Ok eng_title => eng_title
  | Raise _ => PStr title
  end.

(** Whether the turn for the title at position [i] got its translation and
    then failed to print it. *)
Definition print_failed (requests_post : nat → gmap string string → Res Response)
    (print : nat → Line → Res unit)
    (src dest : string) (i : nat) (title : string) : bool :=
  match request_translation requests_post src dest i title with
  | Ok eng_title => raised (print_translation print i title eng_title)
  | Raise _ => false
  end.

(** The titles of [titles] to which that happens, with their positions
    counted from [i]. *)
Definition print_failures (requests_post : nat → gmap string string → Res Response)
    (print : nat → Line → Res unit)
    (src dest : string) (i : nat) (titles : list string) : list (nat * string) :=
  filter (λ p, Is_true (print_failed requests_post print src dest p.1 p.2))
         (imap (λ j title, ((i + j)%nat, title)) titles).

End translator_spec.

(** ** The capability fields of the two categories of targets *)

Module capabilities_spec.

Definition common_fields : gset string :=
  {[ "userName"; "accessKey"; "sessionName"; "buildName"; "osVersion" ]}.

Definition mobile_fields : gset string := {[ "deviceName" ]} ∪ common_fields.

Definition desktop_fields : gset string :=
  {[ "os"; "browserVersion" ]} ∪ common_fields.

End capabilities_spec.

(** ** Title extraction as a list of strategies *)

Module extractor_spec.
Import Py scraper.

Definition sentinel_title : string := "(could not extract title)".

(** The three attempts, most specific first: what each yields. *)
Definition title_strategies (page : Page) : list (Res string) :=
  [ h1 ← wait_presence page "article header h1"; stripped_text h1;
    h1 ← find_element page "h1.a_t"; stripped_text h1;
    h1 ← find_element page "h1"; stripped_text h1 ].

(** The first attempt that did not raise. *)
Fixpoint first_ok (attempts : list (Res string)) : option string :=
  match attempts with
  | [] => None
  | Ok t :: _ => Some t
  | Raise _ :: rest => first_ok rest
  end.


(** The [href] values a list of elements offers. *)
Definition offered (h : string) (elements : Res (list WebElement)) : Prop :=
  ∃ es e, elements = Ok es ∧ e ∈ es ∧ get_attribute e "href" = Ok (Some h).

End extractor_spec.

(** ** What a run did, read off its trace *)

Module runner_spec.
Import Py scraper browserstack_runner.

Definition translated (tr : list Event) : Prop :=
  ∃ titles, TranslateTitles titles ∈ tr.

Definition analyzed (tr : list Event) : Prop :=
  ∃ titles, FindRepeatedWords titles ∈ tr.

Definition is_quit (ev : Event) : bool :=
  match ev with
  | Quit => true
  | _ => false
  end.

(** How many times [driver.quit()] was called. *)
Definition quits (tr : list Event) : nat :=
  length (filter (λ ev, is_quit ev = true) tr).

(** The articles a run extracted: none when no session could be created or
    when scraping raised. *)
Definition extracted (env : Env) (browser_config : BrowserConfig) : list Article :=
  match create_driver env browser_config with
  | Ok driver =>
      match scrape_articles (world env) driver 5 with
      | Ok articles => articles
      | Raise _ => []
      end
  | Raise _ => []
  end.

(** The same session, with another outcome for [execute_script]. *)
Definition with_execute_script (outcome : string → Res unit) (d : WebDriver)
    : WebDriver :=
  {| get := get d; execute_script := outcome; quit := quit d |}.

(** The same environment, with another hub. *)
Definition with_Remote (hub : OptionsClass → gmap string string → Res WebDriver)
    (env : Env) : Env :=
  {| BS_USER := BS_USER env; BS_KEY := BS_KEY env; Remote := hub;
     world := world env; RAPIDAPI_KEY := RAPIDAPI_KEY env;
     requests_post := requests_post env; print := print env |}.

(** The translated titles of the articles of a run. *)
Definition english_titles (env : Env) (articles : list Article) : list PyVal :=
  translator.translate_titles (RAPIDAPI_KEY env) (requests_post env)
    (print env) (map title articles) "es" "en".

(** The status, the reason and the calls that follow from the outcome of
    scraping, once a session exists. *)
Definition verdict (env : Env) (outcome : Res (list Article))
    : string * string * list Event :=
  match outcome with
  | Raise e => ("failed", e, [])
  | Ok [] => ("failed", "Could not scrape any articles", [])
  | Ok articles =>
      let titles_english := english_titles env articles in
      let steps :=
        [ TranslateTitles (map title articles);
          FindRepeatedWords titles_english ] in
      match analyzer.find_repeated_words_of titles_english with
      | Ok _ =>
          ("passed",
           "Scraped " +:+ pretty (length articles) +:+ " articles successfully",
           steps)
      | Raise e => ("failed", e, steps)
      end
  end.

(** The result the orchestrator appends for a finished future. *)
Definition settle (names : gmap nat string) (future : Future) : RunResult :=
  match result future with
  | Ok r => r
  | Raise e =>
      {| browser := default "" (names !! fid future); status := "error";
         reason := e |}
  end.

End runner_spec.

(** ** Concrete pages, sessions and environments *)

Module examples.
Import Py scraper browserstack_runner.

Fixpoint assoc {A} (tbl : list (string * A)) (k : string) : option A :=
  match tbl with
  | [] => None
  | (k', a) :: rest => if bool_decide (k' = k) then Some a else assoc rest k
  end.

Definition found {A} (tbl : list (string * A)) (e : string) (k : string) : Res A :=
  match assoc tbl k with
  | Some a => Ok a
  | None => Raise e
  end.

(** An element with a text and attributes, and nothing inside. *)
Definition element (txt : string) (attrs : list (string * string)) : WebElement :=
  {| text := Ok txt;
     get_attribute := λ k, Ok (assoc attrs k);
     find_element_in := λ _, Raise "NoSuchElementException" |}.

(** An [<article>] whose heading links to [href]. *)
Definition article_linking (href : string) : WebElement :=
  {| text := Ok "";
     get_attribute := λ _, Ok None;
     find_element_in :=
       found [("h2 a", element "" [("href", href)])] "NoSuchElementException" |}.

(** An [<article>] without a heading link. *)
Definition article_plain : WebElement := element "" [].

(** A page given by what each selector finds. *)
Definition page_of (singles : list (string * WebElement))
    (lists : list (string * list WebElement)) : Page :=
  {| find_element := found singles "NoSuchElementException";
     find_elements := λ sel, Ok (default [] (assoc lists sel));
     wait_presence := found singles "TimeoutException";
     wait_clickable := λ _, Raise "TimeoutException" |}.

(** A session serving the given pages. *)
Definition driver_of (pages : list (string * Page)) (notify : Res unit)
    (closing : Res unit) : WebDriver :=
  {| get := found pages "WebDriverException";
     execute_script := λ _, notify;
     quit := closing |}.

(** An article page whose structured header holds a blank heading, while a
    generic heading carries the title. *)
Definition blank_header_page : Page :=
  page_of [ ("article header h1", element "   " []);
            ("h1", element "Un titulo" []) ] [].

(** An article page exposing only a generic top-level heading. *)
Definition generic_heading_page : Page :=
  page_of [ ("h1", element " Un titulo " []) ]
          [ ("article p", [element "Uno." []; element " " []; element "Dos." []]) ].

(** An article page with no heading at all, and a cover image. *)
Definition cover_page : Page :=
  page_of [ ("article figure img, article .a_m_w img",
             element "" [("src", "https://img.example/c.png")]) ] [].

(** The listing: three articles (two link to the same address, one has no
    link) and two more heading links. *)
Definition listing_page : Page :=
  page_of [ ("html", element "" [("lang", "es-ES")]) ]
          [ ("article", [ article_linking "https://elpais.com/opinion/a";
                          article_plain;
                          article_linking "https://elpais.com/opinion/a";
                          article_linking "https://elpais.com/opinion/b" ]);
            ("h2 a[href*='/opinion/']",
             [ element "" [("href", "https://elpais.com/opinion/b")];
               element "" [("href", "https://elpais.com/opinion/c")] ]) ].

(** A listing without any link. *)
Definition empty_listing_page : Page :=
  page_of [ ("html", element "" [("lang", "es-ES")]) ] [].

Definition site : list (string * Page) :=
  [ ("https://elpais.com/opinion/", listing_page);
    ("https://elpais.com/opinion/a", generic_heading_page);
    ("https://elpais.com/opinion/b", blank_header_page);
    ("https://elpais.com/opinion/c", cover_page) ].

Definition empty_site : list (string * Page) :=
  [ ("https://elpais.com/opinion/", empty_listing_page) ].

(** A session that lost its connection: every navigation raises. *)
Definition offline_driver : WebDriver := driver_of [] (Ok tt) (Ok tt).

(** An image server. *)
Definition png_response : HttpResponse :=
  {| raise_for_status := Ok tt;
     headers_get := λ k, assoc [("Content-Type", "image/png")] k;
     save_to := λ _, Ok tt |}.

Definition not_found_response : HttpResponse :=
  {| raise_for_status := Raise "404 Client Error";
     headers_get := λ _, None;
     save_to := λ _, Ok tt |}.

Definition good_world : World :=
  {| IMAGE_DIR := "/app/images"; makedirs := Ok tt;
     requests_get := λ _, Ok png_response |}.

Definition missing_image_world : World :=
  {| IMAGE_DIR := "/app/images"; makedirs := Ok tt;
     requests_get := λ _, Ok not_found_response |}.

(** The images directory cannot be created. *)
Definition read_only_world : World :=
  {| IMAGE_DIR := "/app/images"; makedirs := Raise "PermissionError";
     requests_get := λ _, Ok png_response |}.

(** A translation service that answers for every title. *)
Definition translating (i : nat) (body : gmap string string)
    : Res translator.Response :=
  Ok {| translator.raise_for_status := Ok tt;
        translator.json := Ok {[ "trans" := PStr "A title" ]} |}.

(** A translation service that answers [{"trans": null}]. *)
Definition translating_null (i : nat) (body : gmap string string)
    : Res translator.Response :=
  Ok {| translator.raise_for_status := Ok tt;
        translator.json := Ok {[ "trans" := PNonStr "NoneType" ]} |}.

(** A translation service whose first answer has a letter outside ASCII:
    [{"trans": "The clich\u00e9"}], then [{"trans": "The end"}]. *)
Definition translating_accented (i : nat) (body : gmap string string)
    : Res translator.Response :=
  Ok {| translator.raise_for_status := Ok tt;
        translator.json :=
          Ok {[ "trans" :=
                  PStr (match i with
                        | 0%nat => "The clich" +:+ String (ascii_of_nat 233) EmptyString
                        | _ => "The end"
                        end) ]} |}.

(** The text of a printed line that comes from outside the program. *)
Definition line_text (line : translator.Line) : string :=
  match line with
  | translator.TitleLine title => title
  | translator.TranslationLine (PStr eng_title) => eng_title
  | translator.TranslationLine (PNonStr _) => EmptyString
  end.

Definition is_ascii (s : string) : bool :=
  forallb (λ c, nat_of_ascii c <? 128)%nat (list_ascii_of_string s).

(** A console whose encoding is ASCII: [print] raises on a line with a
    character above U+007F. *)
Definition ascii_console (i : nat) (line : translator.Line) : Res unit :=
  if is_ascii (line_text line) then Ok tt
  else Raise "UnicodeEncodeError: 'ascii' codec can't encode character".

Definition env_of (driver : WebDriver) : Env :=
  {| BS_USER := "user"; BS_KEY := "key";
     Remote := λ _ _, Ok driver;
     world := good_world;
     RAPIDAPI_KEY := "k";
     requests_post := translating;
     print := λ _ _, Ok tt |}.

Definition env_null_of (driver : WebDriver) : Env :=
  {| BS_USER := "user"; BS_KEY := "key";
     Remote := λ _ _, Ok driver;
     world := good_world;
     RAPIDAPI_KEY := "k";
     requests_post := translating_null;
     print := λ _ _, Ok tt |}.

Definition chrome : BrowserConfig :=
  {| name := "Chrome on Windows 11"; is_mobile := false;
     bstack_options := {[ "browserName" := "Chrome" ]} |}.

End examples.

(** ** More on the analyzer *)

Module analyzer_more_spec.
Import Py analyzer.

(** The characters of a string. *)
Definition chars (s : string) : list ascii := list_ascii_of_string s.

(** The class [a-z]. *)
Definition lowercase_letter (c : ascii) : bool :=
  let n := nat_of_ascii c in ((97 <=? n) && (n <=? 122))%nat.

End analyzer_more_spec.

(** ** analyzer.py: the dict in iteration order, and its display *)

Module analyzer_display.
Import Py analyzer.

(** [counts[w] += 1] on a dict kept in iteration order: a key that is
    present keeps its place, a new key goes last. *)
Fixpoint bump (w : string) (items : list (string * nat)) : list (string * nat) :=
  match items with
  | [] => [(w, 1)]
  | (k, n) :: rest =>
      if bool_decide (k = w) then (k, S n) :: rest else (k, n) :: bump w rest
  end.

(** [Counter(ws).items()] *)
Definition Counter_items (ws : list string) : list (string * nat) :=
  foldl (λ items w, bump w items) [] ws.

(** The items of the dict returned by [find_repeated_words] (line 53 keeps
    the order of [counts.items()]). *)
Definition repeated_items (headers : list string) : list (string * nat) :=
  filter (λ kv, 2 < kv.2) (Counter_items (meaningful_words headers)).

(** [sorted(items, key=lambda x: x[1], reverse=True)]: descending counts,
    items of equal count in their original order (the sort is stable, also
    with [reverse=True]). Insertion from the right, each item put before the
    first one that is not greater. *)
Fixpoint insert_desc (x : string * nat) (l : list (string * nat))
    : list (string * nat) :=
  match l with
  | [] => [x]
  | y :: l' => if (x.2 <? y.2)%nat then y :: insert_desc x l' else x :: l
  end.

(** [a] may come before [b] in descending order of count. *)
Definition count_ge (a b : string * nat) : Prop := (b.2 ≤ a.2)%nat.

Definition sorted_desc (items : list (string * nat)) : list (string * nat) :=
  foldr insert_desc [] items.

Definition nl : string := String (ascii_of_nat 10) EmptyString.

(** ["-" * n] *)
Fixpoint dashes (n : nat) : string :=
  match n with
  | 0 => EmptyString
  | S n' => String "-" (dashes n')
  end.

(** [f"   '{word}' - {count} occurrences"] *)
Definition occurrence_line (kv : string * nat) : string :=
  "   '" +:+ kv.1 +:+ "' - " +:+ pretty kv.2 +:+ " occurrences".

(** [print_repeated_words]: the lines printed, and the value returned. *)
Definition print_repeated_words (repeated : list (string * nat))
    : list string * list (string * nat) :=
  (match repeated with
   | _ :: _ =>
       [ nl +:+ "Repeated words (appearing more than twice):"; dashes 40 ]
       ++ (occurrence_line <$> sorted_desc repeated)
   | [] => [ nl +:+ "No words appear more than twice across the headers." ]
   end,
   repeated).

(** The distinct elements of a list, in order of first appearance. *)
Definition first_appearances (ws : list string) : list string :=
  reverse (remove_dups (reverse ws)).

End analyzer_display.

(** ** More on the scraper *)

Module scraper_more_spec.
Import Py scraper.

(** The [href] an element gives, when reading it raises nothing and it is
    neither [None] nor empty. *)
Definition href_of (a : Res WebElement) : option string :=
  match a ≫= (λ e, get_attribute e "href") with
  | Ok (Some h) => if truthy (Some h) then Some h else None
  | _ => None
  end.

(** The links the articles of the listing offer through their heading. *)
Definition article_hrefs (page : Page) : list string :=
  match find_elements page "article" with
  | Ok articles => omap (λ art, href_of (find_element_in art "h2 a")) articles
  | Raise _ => []
  end.

(** The link a value of [href] is a candidate for: none when it is [None]
    or empty. *)
Definition candidate (href : option string) : list string :=
  match href with
  | Some h => if truthy href then [h] else []
  | None => []
  end.

(** The links the elements of the fallback selector offer, up to the first
    whose [href] cannot be read: that exception ends the fallback. *)
Fixpoint hrefs_until_raise (all_h2_links : list WebElement) : list string :=
  match all_h2_links with
  | [] => []
  | a :: rest =>
      match get_attribute a "href" with
      | Ok href => candidate href ++ hrefs_until_raise rest
      | Raise _ => []
      end
  end.

Definition fallback_hrefs (page : Page) : list string :=
  match find_elements page "h2 a[href*='/opinion/']" with
  | Ok all_h2_links => hrefs_until_raise all_h2_links
  | Raise _ => []
  end.

(** The items of [l] that are not in [seen], each at its first occurrence. *)
Fixpoint distinct_from (seen l : list string) : list string :=
  match l with
  | [] => []
  | h :: rest =>
      if bool_decide (h ∈ seen) then distinct_from seen rest
      else h :: distinct_from (seen ++ [h]) rest
  end.

(** [l] without its repetitions, in the order of first occurrence. *)
Definition distinct (l : list string) : list string := distinct_from [] l.

(** The paragraphs the content is read from: those of the content area or,
    when there are none, every paragraph of the article. *)
Definition paragraphs_of (page : Page) : Res (list WebElement) :=
  match find_elements page
          ("article .a_c p, article .article_body p, " +:+
           "article [data-dtm-region='articulo_cuerpo'] p") with
  | Ok [] => find_elements page "article p"
  | found => found
  end.

(** The record extracted from a loaded article page. *)
Definition record_of (w : World) (page : Page) (url : string) (idx : nat)
    : Article :=
  {| url := url; title := extract_title page; content := extract_content page;
     image_path := extract_image w page idx |}.

(** A decimal digit. *)
Definition is_digit (c : ascii) : bool :=
  let n := nat_of_ascii c in ((48 <=? n) && (n <=? 57))%nat.

Fixpoint all_digits (s : string) : bool :=
  match s with
  | EmptyString => true
  | String c s' => is_digit c && all_digits s'
  end.

End scraper_more_spec.

(** ** More examples *)

Module examples_more.
Import Py scraper browserstack_runner examples.

(** A listing of two articles, each with a cover image. *)
Definition covers_listing : Page :=
  page_of [ ("html", element "" [("lang", "es")]) ]
          [ ("article", [ article_linking "https://elpais.com/opinion/x";
                          article_linking "https://elpais.com/opinion/y" ]) ].

Definition covers_site : list (string * Page) :=
  [ ("https://elpais.com/opinion/", covers_listing);
    ("https://elpais.com/opinion/x", cover_page);
    ("https://elpais.com/opinion/y", cover_page) ].

(** A listing whose second article cannot be loaded. *)
Definition broken_site : list (string * Page) :=
  [ ("https://elpais.com/opinion/", covers_listing);
    ("https://elpais.com/opinion/x", cover_page) ].



(** A hub that refuses every session. *)
Definition env_refusing : Env :=
  {| BS_USER := "user"; BS_KEY := "bad";
     Remote := λ _ _, Raise "SessionNotCreatedException";
     world := good_world;
     RAPIDAPI_KEY := "k";
     requests_post := translating;
     print := λ _ _, Ok tt |}.

(** A mobile target whose configuration lacks [deviceName]. *)
Definition phone_without_device : BrowserConfig :=
  {| name := "Some phone"; is_mobile := true;
     bstack_options := {[ "osVersion" := "17"; "browserName" := "Safari" ]} |}.

End examples_more.

(** ** More on the runner *)

Module runner_more_spec.
Import Py scraper browserstack_runner runner_spec.

(** Every double quote of [s] comes right after a backslash;
    [after_backslash] tells whether the character before [s] is one. *)
Fixpoint quotes_escaped_from (after_backslash : bool) (s : string) : bool :=
  match s with
  | EmptyString => true
  | String c s' =>
      if bool_decide (c = "034"%char)
      then after_backslash && quotes_escaped_from false s'
      else quotes_escaped_from (bool_decide (c = "\"%char)) s'
  end.

Definition has_quote (s : string) : bool :=
  bool_decide ("034"%char ∈ list_ascii_of_string s).

(** A notification was sent, or the session was closed. *)
Definition is_session_call (ev : Event) : bool :=
  match ev with
  | ExecuteScript _ | Quit => true
  | _ => false
  end.

(** The run of a target came back with status "passed". *)
Definition passed (outcome : Res RunResult) : Prop :=
  ∃ r, outcome = Ok r ∧ status r = "passed".

(** Lines 226 and 227 of [run_all_browsers], and [run_browserstack] of
    main.py: the number of results whose status is "passed". *)
Definition passed_count (results : list RunResult) : nat :=
  length (filter (λ r, status r = "passed") results).

End runner_more_spec.

(** ** main.py *)

Module main.
Import Py scraper browserstack_runner runner_more_spec.

(** What [run_local] sees of the outside. *)
Record LocalEnv := {
  (** [webdriver.Chrome(options=options)] *)
  Chrome : Res WebDriver;
  (** [driver.maximize_window()] *)
  maximize_window : Res unit;
  local_world : World;
  LOCAL_RAPIDAPI_KEY : string;
  local_requests_post : nat → gmap string string → Res translator.Response;
  (** the console, for the lines [translate_titles] prints in its [try] *)
  local_print : nat → translator.Line → Res unit;
}.

(** The calls of [run_local] whose order matters. *)
Inductive Call :=
| StartChrome
| MaximizeWindow
| Scrape
| Translate (titles : list string)
| Analyze (titles : list PyVal)
| QuitDriver.

(** A statement of [run_local]: given the calls made so far, its outcome
    and the calls made after it. *)
Definition Traced (A : Type) : Type := list Call → Res A * list Call.

Global Instance Traced_ret : MRet Traced := λ A a calls, (Ok a, calls).
Global Instance Traced_bind : MBind Traced := λ A B k m calls,
  match m calls with
  | (Ok a, calls') => k a calls'
  | (Raise e, calls') => (Raise e, calls')
  end.

(** An external call, recorded. *)
Definition invoke {A} (c : Call) (outcome : Res A) : Traced A :=
  λ calls, (outcome, calls ++ [c]).

(** [try: body / finally: final] *)
Definition finally {A} (body : Traced A) (final : Traced unit) : Traced A :=
  λ calls,
    let '(r, calls') := body calls in
    match final calls' with
    | (Ok _, calls'') => (r, calls'')
    | (Raise e, calls'') => (Raise e, calls'')
    end.

(** Lines 89 to 120: the body of the [try]. [display_articles],
    [display_translations] and the timing only print; [return] on an empty
    list leaves the body. *)
Definition local_pipeline (env : LocalEnv) (driver : WebDriver) : Traced unit :=
  articles ← invoke Scrape (scrape_articles (local_world env) driver 5);
  match articles with
  | [] => mret tt
  | _ :: _ =>
      let spanish_titles := map title articles in
      english_titles ← invoke (Translate spanish_titles)
        (Ok (translator.translate_titles (LOCAL_RAPIDAPI_KEY env)
               (local_requests_post env) (local_print env) spanish_titles
               "es" "en"));
      repeated ← invoke (Analyze english_titles)
        (analyzer.find_repeated_words_of english_titles);
      mret tt
  end.

Definition run_local_stmt (env : LocalEnv) : Traced unit :=
  driver ← invoke StartChrome (Chrome env);
  _ ← invoke MaximizeWindow (maximize_window env);
  finally (local_pipeline env driver) (invoke QuitDriver (quit driver)).

(** [run_local]: its outcome and the calls it made. *)
Definition run_local (env : LocalEnv) : Res unit * list Call :=
  run_local_stmt env [].

Definition is_quit_call (c : Call) : bool :=
  match c with
  | QuitDriver => true
  | _ => false
  end.

(** How many times [run_local] closed the browser. *)
Definition closings (calls : list Call) : nat :=
  length (filter (λ c, is_quit_call c = true) calls).

(** What the body of the [try] comes to: the exception of the scrape or of
    the analysis, or a normal end. *)
Definition local_outcome (env : LocalEnv) (driver : WebDriver) : Res unit :=
  match scrape_articles (local_world env) driver 5 with
  | Raise e => Raise e
  | Ok [] => Ok tt
  | Ok articles =>
      match analyzer.find_repeated_words_of
              (translator.translate_titles (LOCAL_RAPIDAPI_KEY env)
                 (local_requests_post env) (local_print env) (map title articles) "es" "en") with
      | Ok _ => Ok tt
      | Raise e => Raise e
      end
  end.

(** A local environment around a session. *)
Definition local_env_of (driver : WebDriver) (maximized : Res unit) : LocalEnv :=
  {| Chrome := Ok driver; maximize_window := maximized;
     local_world := examples.good_world; LOCAL_RAPIDAPI_KEY := "";
     local_requests_post := examples.translating;
     local_print := λ _ _, Ok tt |}.

(** [run_browserstack]: the line printed after the runs. *)
Definition run_browserstack (envs : nat → Env)
    (as_completed : list Future → list Future) : Res string :=
  results ← run_all_browsers envs as_completed;
  let passed := passed_count results in
  mret (if (passed =? length results)%nat
        then String (ascii_of_nat 10) "All browsers passed!"
        else String (ascii_of_nat 10)
               (pretty passed +:+ "/" +:+ pretty (length results)
                +:+ " browsers passed.")).

End main.

(** * Properties *)

(** ** Strings *)

Module Py_facts.
Import Py.

(** The primitives on a few inputs. [tab] and [nl] are the characters
    U+0009 and U+000A. *)
Example primitives_on_inputs :
  let tab := String (ascii_of_nat 9) EmptyString in
  let nl := String (ascii_of_nat 10) EmptyString in
  split ("  The cat" +:+ tab +:+ "runs ") = ["The"; "cat"; "runs"]
  ∧ split "   " = []
  ∧ strip (" " +:+ tab +:+ " Un titulo " +:+ nl) = "Un titulo"
  ∧ lower "El PAIS 2024!" = "el pais 2024!"
  ∧ re_sub_delete (λ c, negb (is_ascii_letter c || isspace c))
      "it's 5 o'clock, e-mail me!" = "its  oclock email me"
  ∧ join " " [] = ""
  ∧ join " " ["a"; "b c"; ""] = "a b c "
  ∧ contains "png" "image/png; charset=x" = true
  ∧ contains "png" "image/PNG" = false
  ∧ strings_from 0 [PStr "a"; PNonStr "NoneType"]
    = Raise "sequence item 1: expected str instance, NoneType found".
Proof. repeat split; reflexivity. Qed.

Lemma lower_char_space : lower_char " " = " "%char.
Proof. reflexivity. Qed.

Lemma lower_app (a b : string) : lower (a +:+ b) = lower a +:+ lower b.
Proof. induction a as [|c a IH]; simpl; [done | by rewrite IH]. Qed.

Lemma re_sub_delete_app cls (a b : string) :
  re_sub_delete cls (a +:+ b) = re_sub_delete cls a +:+ re_sub_delete cls b.
Proof.
  induction a as [|c a IH]; simpl; [done |].
  rewrite IH. by destruct (cls c).
Qed.

(** Splitting a text cut by a whitespace character splits both sides. *)
Lemma split_from_sep (a b : string) (sp : ascii) :
  isspace sp = true →
  ∀ cur, split_from cur (a +:+ String sp b) = split_from cur a ++ split b.
Proof.
  intros Hsp. induction a as [|c a IH]; intros cur; simpl.
  - by rewrite Hsp.
  - destruct (isspace c); [| apply IH].
    by rewrite IH, (assoc_L (++)).
Qed.

Lemma append_not_empty (cur : string) (c : ascii) :
  cur +:+ String c EmptyString ≠ EmptyString.
Proof. by destruct cur. Qed.

(** [split] never yields an empty token. *)
Lemma split_from_nonempty (s : string) :
  ∀ cur w, w ∈ split_from cur s → w ≠ EmptyString.
Proof.
  assert (Hflush : ∀ cur w, w ∈ flush cur → w ≠ EmptyString).
  { intros [|c cur] w; simpl; [by intros ?%elem_of_nil |].
    by intros ->%list_elem_of_singleton. }
  induction s as [|c s IH]; intros cur w; simpl; [apply Hflush |].
  destruct (isspace c).
  - rewrite elem_of_app. intros [?|?]; eauto.
  - intros Hw. by apply IH in Hw.
Qed.

Lemma join_two (sep h h' : string) (t : list string) :
  join sep (h :: h' :: t) = h +:+ sep +:+ join sep (h' :: t).
Proof. reflexivity. Qed.

End Py_facts.

(** ** analyzer.py: the repeated words *)

Module analyzer_facts.
Import Py Py_facts analyzer analyzer_spec.

Lemma occurrences_cons (w x : string) (ws : list string) :
  occurrences w (x :: ws) =
  if decide (x = w) then S (occurrences w ws) else occurrences w ws.
Proof. unfold occurrences. rewrite filter_cons. by case_decide. Qed.

Lemma occurrences_Permutation (w : string) (ws ws' : list string) :
  ws ≡ₚ ws' → occurrences w ws = occurrences w ws'.
Proof. unfold occurrences. by intros ->. Qed.

(** The loop of [Counter]: every word ends up with its count added. *)
Lemma Counter_loop_lookup (ws : list string) :
  ∀ (m : gmap string nat) (w : string),
    foldl Counter_add m ws !! w =
    if decide (occurrences w ws = 0) then m !! w
    else Some (default 0 (m !! w) + occurrences w ws).
Proof.
  induction ws as [|x ws IH]; intros m w; [done |].
  simpl. rewrite IH, occurrences_cons. unfold Counter_add.
  destruct (decide (x = w)) as [->|Hne].
  - rewrite lookup_insert_eq. simpl.
    repeat case_decide; try lia; f_equal; lia.
  - by rewrite lookup_insert_ne.
Qed.

Lemma Counter_lookup (ws : list string) (w : string) :
  Counter ws !! w =
  if decide (occurrences w ws = 0) then None else Some (occurrences w ws).
Proof. unfold Counter. by rewrite Counter_loop_lookup, lookup_empty. Qed.

Lemma find_repeated_words_lookup (headers : list string) (w : string) :
  find_repeated_words headers !! w =
  let n := occurrences w (meaningful_words headers) in
  if decide (2 < n) then Some n else None.
Proof.
  unfold find_repeated_words. simpl.
  set (n := occurrences w (meaningful_words headers)).
  destruct (decide (2 < n)) as [Hn|Hn].
  - apply map_lookup_filter_Some. split; [| done].
    rewrite Counter_lookup. fold n. case_decide; [lia | done].
  - apply map_lookup_filter_None. right. intros c.
    rewrite Counter_lookup. fold n. case_decide; [done |].
    intros [= <-]. done.
Qed.

(** The two readings of the letter class agree on every character. *)
Lemma basic_latin_letter_range (c : ascii) :
  basic_latin_letter c = is_ascii_letter c.
Proof.
  destruct c as [[] [] [] [] [] [] [] []]; vm_compute; reflexivity.
Qed.

Lemma keep_only_delete (s : string) :
  keep_only (λ c, basic_latin_letter c || isspace c) s =
  re_sub_delete not_letter_nor_space s.
Proof.
  induction s as [|c s IH]; simpl; [done |].
  unfold not_letter_nor_space at 1. rewrite basic_latin_letter_range, IH.
  by destruct (is_ascii_letter c || isspace c).
Qed.

Lemma filter_ext_elem {A} (P Q : A → Prop) `{!∀ x, Decision (P x)}
    `{!∀ x, Decision (Q x)} (l : list A) :
  (∀ x, x ∈ l → P x ↔ Q x) → filter P l = filter Q l.
Proof.
  induction l as [|a l IH]; intros Hext; [done |].
  rewrite !filter_cons.
  rewrite IH by (intros x Hx; apply Hext; by right).
  apply decide_ext, Hext. by left.
Qed.

(** The specification's tokens are the words the code counts. *)
Lemma spec_tokens_meaningful_words (headers : list string) :
  spec_tokens headers = meaningful_words headers.
Proof.
  unfold spec_tokens, meaningful_words. simpl.
  rewrite keep_only_delete.
  apply filter_ext_elem. intros w Hw.
  apply split_from_nonempty in Hw.
  destruct w as [|c [|d w]]; simpl; [done | |]; split; intros [? ?];
    split; try done; lia.
Qed.

Lemma header_words_sep (a b : string) :
  header_words (a +:+ " " +:+ b) = header_words a ++ header_words b.
Proof.
  unfold header_words. rewrite lower_app, re_sub_delete_app.
  change (lower (" " +:+ b)) with (String " " (lower b)).
  change (re_sub_delete not_letter_nor_space (String " " (lower b)))
    with (String " " (re_sub_delete not_letter_nor_space (lower b))).
  by apply split_from_sep.
Qed.

(** The raw words of the joined text are those of the headers, in order. *)
Lemma words_of_join (headers : list string) :
  header_words (join " " headers) = headers ≫= header_words.
Proof.
  induction headers as [|h [|h' t] IH]; [done | |].
  - change (join " " [h]) with h.
    change ([h] ≫= header_words) with (header_words h ++ []).
    by rewrite (right_id_L [] (++)).
  - rewrite join_two, header_words_sep, IH. done.
Qed.


Lemma meaningful_words_Permutation (hs hs' : list string) :
  hs ≡ₚ hs' → meaningful_words hs ≡ₚ meaningful_words hs'.
Proof.
  intros Hp. unfold meaningful_words. simpl.
  fold (header_words (join " " hs)). fold (header_words (join " " hs')).
  rewrite !words_of_join. by rewrite Hp.
Qed.

End analyzer_facts.

Module analyzer_claims.
Import Py analyzer analyzer_spec analyzer_facts.

(** C2. For every list of headers and every word [w]: [w] is a key of
    [find_repeated_words headers] exactly when [w] occurs more than twice
    among the tokens obtained by lowercasing the joined headers, deleting
    every character outside basic Latin letters and whitespace, splitting on
    whitespace and discarding stop-words and tokens of length 1; the value
    stored for [w] is that number of occurrences. For the titles
    "The cat runs", "The cat eats", "The dog runs", where "cat" and "runs"
    occur exactly twice, the result is the empty map. *)
Theorem find_repeated_words_spec :
  (∀ (headers : list string) (w : string),
     let n := occurrences w (spec_tokens headers) in
     (w ∈ dom (find_repeated_words headers) ↔ 2 < n) ∧
     (∀ c, find_repeated_words headers !! w = Some c → c = n))
  ∧ (let titles := ["The cat runs"; "The cat eats"; "The dog runs"] in
     occurrences "cat" (spec_tokens titles) = 2 ∧
     occurrences "runs" (spec_tokens titles) = 2 ∧
     find_repeated_words titles = ∅).
Proof.
  split.
  - intros headers w n. subst n.
    rewrite spec_tokens_meaningful_words, elem_of_dom.
    rewrite find_repeated_words_lookup. simpl.
    case_decide; split.
    + split; [done | by eexists].
    + by intros c [= <-].
    + split; [by intros [? ?] | done].
    + done.
  - simpl. rewrite !spec_tokens_meaningful_words.
    split; [by vm_compute | split; [by vm_compute |]].
    apply map_eq. intros w.
    rewrite find_repeated_words_lookup, lookup_empty. simpl.
    case_decide as Hw; [| done]. exfalso. revert Hw.
    let ws := eval vm_compute in
      (meaningful_words ["The cat runs"; "The cat eats"; "The dog runs"]) in
    change (meaningful_words ["The cat runs"; "The cat eats"; "The dog runs"])
      with ws.
    rewrite !occurrences_cons. unfold occurrences. simpl.
    repeat case_decide; simplify_eq; lia.
Qed.

(** C9. [find_repeated_words] does not depend on the order of the headers:
    two lists holding the same titles, each as many times, give the same
    word-frequency map. *)
Theorem find_repeated_words_order_insensitive (headers headers' : list string) :
  headers ≡ₚ headers' →
  find_repeated_words headers = find_repeated_words headers'.
Proof.
  intros Hp. apply map_eq. intros w.
  rewrite !find_repeated_words_lookup. simpl.
  by rewrite (occurrences_Permutation w _ _ (meaningful_words_Permutation _ _ Hp)).
Qed.

Lemma find_repeated_words_order_insensitive_witness :
  let hs := ["vote vote now"; "the vote"; "a vote!"] in
  let hs' := ["a vote!"; "vote vote now"; "the vote"] in
  hs ≡ₚ hs' ∧
  find_repeated_words hs = find_repeated_words hs' ∧
  find_repeated_words hs !! "vote" = Some 4.
Proof.
  simpl.
  assert (Hp : ["vote vote now"; "the vote"; "a vote!"]
               ≡ₚ ["a vote!"; "vote vote now"; "the vote"]).
  { symmetry.
    exact (Permutation_cons_append ["vote vote now"; "the vote"] "a vote!"). }
  split; [exact Hp |].
  split; [exact (find_repeated_words_order_insensitive _ _ Hp) |].
  rewrite find_repeated_words_lookup. vm_compute. reflexivity.
Defined.

End analyzer_claims.

(** ** translator.py *)

Module translator_facts.
Import Py translator translator_spec.

Section with_network.
Variable requests_post : nat → gmap string string → Res Response.
Variable print : nat → Line → Res unit.
Variables src dest : string.

Lemma appended_translation (i : nat) (title : string) :
  appended requests_post src dest i title =
  default (PStr title) (translation_of requests_post src dest i title).
Proof.
  unfold appended, request_translation, translation_of.
  destruct (requests_post i _) as [resp|e]; [| done]. simpl.
  destruct (raise_for_status resp) as [[]|e]; [| done]. simpl.
  by destruct (json resp) as [result|e].
Qed.

(** One turn appends one item, and the original after it when the
    translation could not be printed. *)
Lemma translate_step_appended (i : nat) (title : string) (translated : list PyVal) :
  translate_step requests_post print src dest i title translated =
  translated ++ appended requests_post src dest i title ::
    (if print_failed requests_post print src dest i title
     then [PStr title] else []).
Proof.
  unfold translate_step, appended, print_failed.
  destruct (request_translation _ _ _ _ _) as [eng_title|e]; [| done].
  destruct (print_translation _ _ _ _) as [[]|e]; simpl; [done |].
  by rewrite <- (assoc_L (++)).
Qed.

(** A loop whose turns append one item each. *)
Lemma translate_loop_imap (f : nat → string → PyVal) (titles : list string) :
  ∀ (i : nat) (translated : list PyVal),
    (∀ j title, titles !! j = Some title →
       print_failed requests_post print src dest (i + j) title = false
       ∧ appended requests_post src dest (i + j) title = f (i + j)%nat title) →
    translate_loop requests_post print src dest i titles translated =
    translated ++ imap (λ j, f (i + j)%nat) titles.
Proof.
  induction titles as [|title rest IH]; intros i translated Hone; simpl.
  - by rewrite (right_id_L [] (++)).
  - rewrite translate_step_appended.
    destruct (Hone 0%nat title eq_refl) as [Hp Ha].
    rewrite Nat.add_0_r in Hp, Ha. rewrite Hp, Ha.
    rewrite IH.
    + rewrite <- (assoc_L (++)). simpl. rewrite Nat.add_0_r.
      do 2 f_equal. apply imap_ext. intros j t _. simpl. f_equal. lia.
    + intros j t Hj. replace (S i + j)%nat with (i + S j)%nat by lia.
      by apply Hone.
Qed.

Lemma print_failures_cons (i : nat) (title : string) (rest : list string) :
  print_failures requests_post print src dest i (title :: rest) =
  (if print_failed requests_post print src dest i title then [(i, title)] else [])
  ++ print_failures requests_post print src dest (S i) rest.
Proof.
  unfold print_failures. simpl. rewrite filter_cons. simpl.
  rewrite Nat.add_0_r.
  rewrite (imap_ext _ (λ j title, ((S i + j)%nat, title)) rest)
    by (intros j t _; simpl; f_equal; lia).
  destruct (decide _) as [Hp|Hp];
    by destruct (print_failed _ _ _ _ _ _).
Qed.

(** The length of the list the loop returns: one item for each title, and
    one more for each translation that could not be printed. *)
Lemma translate_loop_length (titles : list string) :
  ∀ (i : nat) (translated : list PyVal),
    length (translate_loop requests_post print src dest i titles translated) =
    (length translated + length titles
     + length (print_failures requests_post print src dest i titles))%nat.
Proof.
  induction titles as [|title rest IH]; intros i translated.
  - simpl. unfold print_failures. simpl. lia.
  - cbn [translate_loop]. rewrite IH, translate_step_appended.
    rewrite print_failures_cons, !length_app. simpl.
    destruct (print_failed _ _ _ _ _ _); simpl; lia.
Qed.

(** When no print raises, no translation fails to print. *)
Lemma print_failed_quiet (i : nat) (title : string) :
  (∀ j line, raised (print j line) = false) →
  print_failed requests_post print src dest i title = false.
Proof.
  intros Hquiet. unfold print_failed, print_translation.
  destruct (request_translation _ _ _ _ _) as [eng_title|e]; [| done].
  pose proof (Hquiet i (TitleLine title)) as H1.
  pose proof (Hquiet i (TranslationLine eng_title)) as H2.
  destruct (print i (TitleLine title)) as [[]|]; [| done]. simpl.
  by destruct (print i (TranslationLine eng_title)).
Qed.

(** When every print goes through, position [i] of the result holds the
    translation of the [i]-th title, or that title when its translation
    failed. *)
Lemma translate_titles_printed (RAPIDAPI_KEY : string) (titles : list string) :
  (∀ j line, raised (print j line) = false) →
  translate_titles RAPIDAPI_KEY requests_post print titles src dest =
  if decide (RAPIDAPI_KEY = EmptyString) then PStr <$> titles
  else imap (λ i title, default (PStr title)
                          (translation_of requests_post src dest i title))
            titles.
Proof.
  intros Hquiet. unfold translate_titles.
  destruct RAPIDAPI_KEY as [|c key]; [done |].
  destruct (decide _) as [|_]; [done |].
  rewrite (translate_loop_imap
             (λ i title, default (PStr title)
                (translation_of requests_post src dest i title))); [done |].
  intros j title _. split; [by apply print_failed_quiet |].
  apply appended_translation.
Qed.

End with_network.

End translator_facts.

Module translator_claims.
Import Py translator translator_spec translator_facts examples.

(** C10. [translate_titles] does not always return a list as long as its
    input. With no API key the input list itself is returned. Otherwise the
    result has one item for each title and one more for each title whose
    translation was obtained and then could not be printed: the [try]
    appends the translation before it prints, and the [except] clause that
    catches the failing print appends the original title as well. So the
    result has the length of the input, with the translation or the
    unchanged original at each position, only when every print goes
    through. On a console that cannot encode the first of two translations
    the result has three items, and the second one is the first original
    title. *)
Theorem translate_titles_appends_twice :
  (∀ (RAPIDAPI_KEY : string)
     (requests_post : nat → gmap string string → Res Response)
     (print : nat → Line → Res unit)
     (titles : list string) (src dest : string),
     let translated :=
       translate_titles RAPIDAPI_KEY requests_post print titles src dest in
     (RAPIDAPI_KEY = EmptyString → translated = PStr <$> titles) ∧
     (RAPIDAPI_KEY ≠ EmptyString →
      length translated =
      (length titles
       + length (print_failures requests_post print src dest 0 titles))%nat) ∧
     (RAPIDAPI_KEY ≠ EmptyString →
      (∀ j line, raised (print j line) = false) →
      length translated = length titles ∧
      ∀ (i : nat) (title : string),
        titles !! i = Some title →
        translated !! i =
        Some (default (PStr title)
                (translation_of requests_post src dest i title))))
  ∧ (let titles := ["El cliche"; "El fin"] in
     let translated :=
       translate_titles "k" translating_accented ascii_console titles "es" "en" in
     translated !! 0%nat = translation_of translating_accented "es" "en" 0 "El cliche"
     ∧ translated !! 1%nat = Some (PStr "El cliche")
     ∧ translated !! 2%nat = Some (PStr "The end")
     ∧ length translated = 3%nat
     ∧ length titles = 2%nat).
Proof.
  split; [| by vm_compute].
  intros key post print titles src dest translated. subst translated.
  split; [| split].
  - by intros ->.
  - intros Hkey. unfold translate_titles.
    destruct key as [|c key]; [done |].
    by rewrite translate_loop_length.
  - intros Hkey Hquiet. rewrite (translate_titles_printed _ _ _ _ _ _ Hquiet).
    destruct (decide _) as [|_]; [done |].
    split; [by rewrite length_imap |].
    intros i title Hi. by rewrite list_lookup_imap, Hi.
Qed.

End translator_claims.

(** ** browserstack_runner.py: the session factory *)

Module create_driver_claims.
Import Py scraper browserstack_runner capabilities_spec.

(** C8. The capability payload that [create_driver] hands to the hub
    follows [is_mobile]: for a mobile target its fields are the common ones
    and [deviceName], with no [browserVersion], [os] or [platform]; for a
    desktop target they are the common ones, [os] and [browserVersion], with
    no [deviceName]. When no payload can be built (a mobile target lacking
    [deviceName] or [osVersion]) the hub is not reached. *)
Theorem create_driver_payload (env : Env) (browser_config : BrowserConfig) :
  match bstack_caps (BS_USER env) (BS_KEY env) browser_config with
  | Ok caps =>
      create_driver env browser_config =
        Remote env (options_class (bstack_options browser_config)) caps
      ∧ (if is_mobile browser_config
         then dom caps = mobile_fields
              ∧ caps !! "browserVersion" = None
              ∧ caps !! "os" = None
              ∧ caps !! "platform" = None
         else dom caps = desktop_fields
              ∧ caps !! "deviceName" = None)
  | Raise e =>
      create_driver env browser_config = Raise e
      ∧ is_mobile browser_config = true
  end.
Proof.
  unfold create_driver, bstack_caps, getitem.
  destruct (is_mobile browser_config); simpl.
  - destruct (bstack_options browser_config !! "deviceName") as [dev|];
      simpl; [| done].
    destruct (bstack_options browser_config !! "osVersion") as [ver|];
      simpl; [| done].
    split; [done |].
    split; [| by rewrite !lookup_insert_ne, !lookup_singleton_ne by done].
    rewrite !dom_insert_L, dom_singleton_L.
    unfold mobile_fields, common_fields. set_solver.
  - split; [done |].
    split; [| by rewrite !lookup_insert_ne, !lookup_singleton_ne by done].
    rewrite !dom_insert_L, dom_singleton_L.
    unfold desktop_fields, common_fields. set_solver.
Qed.

(** Every configured target yields a payload. *)
Lemma BROWSERS_payloads (user key : string) :
  Forall (λ b, raised (bstack_caps user key b) = false) BROWSERS.
Proof. repeat constructor. Qed.

End create_driver_claims.

(** ** scraper.py *)

Module scraper_facts.
Import Py scraper extractor_spec scraper_more_spec.

(** One candidate link keeps the list duplicate-free and only extends it. *)
Lemma add_link_spec (n : nat) (href : option string) (links links' : list string)
    (break : bool) :
  add_link n href links = (links', break) →
  NoDup links →
  NoDup links' ∧ links `prefix_of` links'.
Proof.
  unfold add_link. intros Hadd Hnd.
  destruct href as [h|]; [| by simplify_eq].
  destruct (truthy (Some h) && negb (bool_decide (h ∈ links))) eqn:Hc;
    simplify_eq; [| done].
  apply andb_true_iff in Hc as [_ Hc].
  apply negb_true_iff, bool_decide_eq_false in Hc.
  split; [| by eexists].
  apply NoDup_app. split_and!; [done | | apply NoDup_singleton].
  intros x Hx ->%list_elem_of_singleton. done.
Qed.

Lemma add_link_cases (n : nat) (href : option string) (links : list string) :
  (∃ h, href = Some h ∧ h ≠ "" ∧ (h ∉ links)
        ∧ add_link n href links = (links ++ [h], (n <=? S (length links))%nat))
  ∨ ((∀ h, href = Some h → h = "" ∨ h ∈ links)
     ∧ add_link n href links = (links, false)).
Proof.
  unfold add_link. destruct href as [h|]; [| right; by split].
  destruct h as [|c h]; simpl.
  - right. split; [| done]. intros ? [= <-]. by left.
  - case_bool_decide as Hin; simpl.
    + right. split; [| done]. intros ? [= <-]. by right.
    + left. eexists. split_and!; [done.. |].
      by rewrite length_app, Nat.add_1_r.
Qed.

Lemma primary_loop_spec (n : nat) (articles : list WebElement) :
  ∀ links, NoDup links →
    NoDup (primary_loop n articles links)
    ∧ links `prefix_of` primary_loop n articles links.
Proof.
  induction articles as [|art rest IH]; intros links Hnd; simpl; [done |].
  destruct (_ ≫= _) as [href|e]; [| by apply IH].
  destruct (add_link n href links) as [links' break] eqn:Hadd.
  destruct (add_link_spec _ _ _ _ _ Hadd Hnd) as [Hnd' Hpre].
  destruct break; [done |].
  destruct (IH links' Hnd') as [? ?]. split; [done | by etrans].
Qed.

Lemma fallback_loop_spec (n : nat) (anchors : list WebElement) :
  ∀ links, NoDup links →
    NoDup (fallback_loop n anchors links)
    ∧ links `prefix_of` fallback_loop n anchors links.
Proof.
  induction anchors as [|a rest IH]; intros links Hnd; simpl; [done |].
  destruct (get_attribute a "href") as [href|e]; [| done].
  destruct (add_link n href links) as [links' break] eqn:Hadd.
  destruct (add_link_spec _ _ _ _ _ Hadd Hnd) as [Hnd' Hpre].
  destruct break; [done |].
  destruct (IH links' Hnd') as [? ?]. split; [done | by etrans].
Qed.

(** What the fallback loop adds was offered by one of its elements. *)
Lemma fallback_loop_extra (n : nat) (anchors : list WebElement) :
  ∀ links, ∃ extra,
    fallback_loop n anchors links = links ++ extra
    ∧ ∀ h, h ∈ extra → ∃ a, a ∈ anchors ∧ get_attribute a "href" = Ok (Some h).
Proof.
  induction anchors as [|a rest IH]; intros links; simpl.
  - exists []. split; [by rewrite (right_id_L [] (++)) |].
    by intros h ?%elem_of_nil.
  - destruct (get_attribute a "href") as [href|e] eqn:Ha.
    + assert (Hadd : ∃ new, (add_link n href links).1 = links ++ new
                            ∧ ∀ h, h ∈ new → href = Some h).
      { unfold add_link. destruct href as [h|].
        - destruct (truthy (Some h) && negb (bool_decide (h ∈ links))); simpl.
          + exists [h]. split; [done |]. by intros ? ->%list_elem_of_singleton.
          + exists []. split; [by rewrite (right_id_L [] (++)) |].
            by intros ? ?%elem_of_nil.
        - exists []. split; [by rewrite (right_id_L [] (++)) |].
          by intros ? ?%elem_of_nil. }
      destruct Hadd as (new & Hnew & Hfrom).
      destruct (add_link n href links) as [links' break]. simpl in Hnew.
      subst links'.
      assert (Hmine : ∀ h, h ∈ new →
                ∃ a0, a0 ∈ a :: rest ∧ get_attribute a0 "href" = Ok (Some h)).
      { intros h Hh. exists a. split; [by left |]. by rewrite <- (Hfrom h Hh). }
      destruct break.
      * by exists new.
      * destruct (IH (links ++ new)) as (extra & -> & Hextra).
        exists (new ++ extra). split; [by rewrite (assoc_L (++)) |].
        intros h [Hh|Hh]%elem_of_app; [by apply Hmine |].
        destruct (Hextra h Hh) as (a0 & ? & ?). exists a0. split; [by right | done].
    + exists []. split; [by rewrite (right_id_L [] (++)) |].
      by intros h ?%elem_of_nil.
Qed.

Lemma with_fallback_extra (page : Page) (n : nat) (links : list string) :
  ∃ extra,
    with_fallback page n links = links ++ extra
    ∧ ∀ h, h ∈ extra → offered h (find_elements page "h2 a[href*='/opinion/']").
Proof.
  assert (Hnone : ∃ extra, links = links ++ extra
            ∧ ∀ h, h ∈ extra →
                offered h (find_elements page "h2 a[href*='/opinion/']")).
  { exists []. split; [by rewrite (right_id_L [] (++)) |].
    by intros h ?%elem_of_nil. }
  unfold with_fallback. destruct (length links <? n)%nat; [| done].
  destruct (find_elements page _) as [anchors|e] eqn:Hfind; [| done].
  destruct (fallback_loop_extra n anchors links) as (extra & -> & Hextra).
  exists extra. split; [done |]. intros h Hh.
  destruct (Hextra h Hh) as (a & ? & ?). by exists anchors, a.
Qed.

Lemma primary_links_NoDup (page : Page) (n : nat) : NoDup (primary_links page n).
Proof.
  unfold primary_links. destruct (find_elements page "article").
  - apply primary_loop_spec, NoDup_nil_2.
  - apply NoDup_nil_2.
Qed.

Lemma with_fallback_spec (page : Page) (n : nat) (links : list string) :
  NoDup links →
  NoDup (with_fallback page n links) ∧ links `prefix_of` with_fallback page n links.
Proof.
  intros Hnd. unfold with_fallback.
  destruct (length links <? n)%nat; [| done].
  destruct (find_elements page _); [| done].
  by apply fallback_loop_spec.
Qed.

Lemma distinct_from_app (l k : list string) :
  ∀ seen,
    distinct_from seen (l ++ k) =
    distinct_from seen l ++ distinct_from (seen ++ distinct_from seen l) k.
Proof.
  induction l as [|h rest IH]; intros seen; simpl.
  - by rewrite (right_id_L [] (++)).
  - case_bool_decide; [apply IH |].
    rewrite IH. simpl. by rewrite <- (assoc_L (++)).
Qed.

(** One candidate link, seen from the list the loops are building: the list
    stays what the first [n] distinct candidates make it. *)
Lemma add_link_take (n : nat) (href : option string) (links cands : list string) :
  length links < n →
  let whole := links ++ distinct_from links (candidate href ++ cands) in
  match add_link n href links with
  | (links', true) => links' = take n whole
  | (links', false) =>
      length links' < n ∧ links' ++ distinct_from links' cands = whole
  end.
Proof.
  intros Hlen whole. subst whole.
  destruct (add_link_cases n href links)
    as [(h & -> & Hne & Hnotin & ->)|[Hold ->]].
  - destruct h as [|c h]; [done |]. simpl.
    rewrite bool_decide_eq_false_2 by done.
    destruct (n <=? S (length links))%nat eqn:Hle.
    + apply Nat.leb_le in Hle.
      rewrite (cons_middle _ links (distinct_from _ _)), (assoc_L (++)).
      rewrite take_app_length'; [done |]. rewrite length_app. simpl. lia.
    + apply Nat.leb_gt in Hle. split; [rewrite length_app; simpl; lia |].
      by rewrite <- (assoc_L (++)).
  - split; [done |]. destruct href as [[|c h]|]; simpl; [done | | done].
    destruct (Hold _ eq_refl) as [?|Hin]; [done |].
    by rewrite bool_decide_eq_true_2.
Qed.

(** The primary loop keeps the first [n] distinct links of the articles. *)
Lemma primary_loop_take (n : nat) (articles : list WebElement) :
  ∀ links, length links < n →
    primary_loop n articles links =
    take n (links ++ distinct_from links
              (omap (λ art, href_of (find_element_in art "h2 a")) articles)).
Proof.
  induction articles as [|art rest IH]; intros links Hlen.
  - simpl. rewrite (right_id_L [] (++)). by rewrite take_ge by lia.
  - cbn [primary_loop omap list_omap]. unfold href_of at 1.
    destruct (_ ≫= _) as [href|e]; [| by apply IH].
    pose proof (add_link_take n href links
                  (omap (λ art, href_of (find_element_in art "h2 a")) rest) Hlen)
      as Hadd.
    assert (Hc : ∀ k : list string,
              match (match href with
                     | Some h => if truthy (Some h) then Some h else None
                     | None => None
                     end) with
              | Some y => y :: k
              | None => k
              end = candidate href ++ k).
    { intros k. by destruct href as [[|c h]|]. }
    rewrite Hc.
    destruct (add_link n href links) as [links' [|]].
    + done.
    + destruct Hadd as [Hlen' <-]. by apply IH.
Qed.

(** The fallback loop goes on from there with the links of its elements. *)
Lemma fallback_loop_take (n : nat) (anchors : list WebElement) :
  ∀ links, length links < n →
    fallback_loop n anchors links =
    take n (links ++ distinct_from links (hrefs_until_raise anchors)).
Proof.
  induction anchors as [|a rest IH]; intros links Hlen; simpl.
  - rewrite (right_id_L [] (++)). by rewrite take_ge by lia.
  - destruct (get_attribute a "href") as [href|e].
    + pose proof (add_link_take n href links (hrefs_until_raise rest) Hlen)
        as Hadd.
      destruct (add_link n href links) as [links' [|]].
      * done.
      * destruct Hadd as [Hlen' <-]. by apply IH.
    + simpl. rewrite (right_id_L [] (++)). by rewrite take_ge by lia.
Qed.

(** The links returned, in closed form. *)
Lemma collected_take (page : Page) (n : nat) :
  take n (with_fallback page n (primary_links page n)) =
  take n (distinct (article_hrefs page ++ fallback_hrefs page)).
Proof.
  destruct n as [|n]; [done |].
  assert (Hp : primary_links page (S n) = take (S n) (distinct (article_hrefs page))).
  { unfold primary_links, article_hrefs, distinct.
    destruct (find_elements page "article") as [articles|e]; [| done].
    rewrite primary_loop_take by (simpl; lia). done. }
  unfold distinct in *. rewrite distinct_from_app. simpl.
  set (D := distinct_from [] (article_hrefs page)) in *.
  unfold with_fallback. rewrite Hp.
  destruct (length (take (S n) D) <? S n)%nat eqn:Hlt.
  - apply Nat.ltb_lt in Hlt. rewrite length_take in Hlt.
    assert (HD : length D < S n) by lia.
    rewrite (take_ge D) by lia. unfold fallback_hrefs.
    destruct (find_elements page _) as [anchors|e].
    + rewrite fallback_loop_take by done.
      by rewrite take_take, Nat.min_id.
    + simpl. by rewrite (right_id_L [] (++)).
  - apply Nat.ltb_ge in Hlt. rewrite length_take in Hlt.
    rewrite take_take, Nat.min_id.
    by rewrite take_app_le by lia.
Qed.

Lemma NoDup_take {A} (l : list A) (n : nat) : NoDup l → NoDup (take n l).
Proof.
  intros Hnd. rewrite <- (take_drop n l) in Hnd.
  by apply NoDup_app in Hnd as [? _].
Qed.

(** The title is what the first attempt that did not raise gave. *)
Lemma extract_title_first_ok (page : Page) :
  extract_title page = default sentinel_title (first_ok (title_strategies page)).
Proof.
  unfold extract_title, title_strategies. simpl.
  destruct (_ ≫= _) as [t|e]; [done |].
  destruct (_ ≫= _) as [t|e']; [done |].
  by destruct (_ ≫= _) as [t|e''].
Qed.

Lemma first_ok_elem (attempts : list (Res string)) (t : string) :
  first_ok attempts = Some t → Ok t ∈ attempts.
Proof.
  induction attempts as [|[t'|e] rest IH]; simpl; [done | |].
  - intros [= ->]. by left.
  - intros H. right. by apply IH.
Qed.


(** The image path of a record is a path some download returned. *)
Lemma extract_image_Some (w : World) (page : Page) (idx : nat) (p : string) :
  extract_image w page idx = Some p →
  ∃ img_url, download_image w img_url idx = Ok (Some p).
Proof.
  unfold extract_image.
  destruct (find_element page _) as [img|e]; [| done]. simpl.
  destruct (get_attribute img "src") as [img_url|e]; [| done]. simpl.
  destruct (truthy img_url); [| done].
  destruct (download_image w _ idx) as [path|e] eqn:Hd; [| done].
  intros ->. eauto.
Qed.



End scraper_facts.

Module scraper_claims.
Import Py scraper extractor_spec scraper_more_spec scraper_facts examples.

(** C3, as amended. Title extraction tries the three selectors most
    specific first; the first attempt that raises no exception gives the
    title, which is its stripped text even when that text is empty; when all
    three raise, the title is "(could not extract title)". A title is
    therefore always present, and it is empty only when the attempt that
    gave it found a heading with blank text. *)
Theorem extract_title_first_success (w : World) (driver : WebDriver)
    (url : string) (idx : nat) (page : Page) :
  get driver url = Ok page →
  ∃ a, scrape_single_article w driver url idx = Ok a
       ∧ title a = default sentinel_title (first_ok (title_strategies page))
       ∧ (Forall (λ r, raised r = true) (title_strategies page) →
          title a = "(could not extract title)")
       ∧ (title a = "" → Ok "" ∈ title_strategies page).
Proof.
  intros Hget. unfold scrape_single_article. rewrite Hget. simpl.
  eexists. split; [done |]. simpl.
  rewrite extract_title_first_ok.
  split; [done |]. split.
  - unfold title_strategies. intros Hall.
    apply Forall_cons in Hall as [H1 Hall].
    apply Forall_cons in Hall as [H2 Hall].
    apply Forall_cons in Hall as [H3 _].
    simpl. destruct (_ ≫= _); [done |].
    destruct (_ ≫= _); [done |]. by destruct (_ ≫= _).
  - destruct (first_ok (title_strategies page)) as [t|] eqn:Hfirst; simpl.
    + intros ->. by apply first_ok_elem.
    + done.
Qed.

Lemma extract_title_first_success_witness :
  let driver := driver_of site (Ok tt) (Ok tt) in
  get driver "https://elpais.com/opinion/a" = Ok generic_heading_page
  ∧ ∃ a, scrape_single_article good_world driver "https://elpais.com/opinion/a" 0
         = Ok a
         ∧ title a = "Un titulo".
Proof.
  simpl. split; [reflexivity |].
  destruct (extract_title_first_success good_world
              (driver_of site (Ok tt) (Ok tt))
              "https://elpais.com/opinion/a" 0 generic_heading_page eq_refl)
    as (a & Ha & Ht & _).
  exists a. split; [exact Ha | exact Ht].
Defined.

(** C3 as stated fails: the structured header is found, its text is blank,
    the generic heading that carries the title is never tried, and the
    record's title is empty. *)
Lemma blank_header_gives_empty_title :
  title_strategies blank_header_page
  = [Ok ""; Raise "NoSuchElementException"; Ok "Un titulo"]
  ∧ scrape_single_article good_world (driver_of site (Ok tt) (Ok tt))
      "https://elpais.com/opinion/b" 1
    = Ok {| url := "https://elpais.com/opinion/b"; title := "";
            content := ""; image_path := None |}.
Proof. split; reflexivity. Qed.

(** C4, as amended. [get_article_links] raises exactly when the navigation
    to the listing or the language check raises. Otherwise it returns a
    list of at most [num_articles] links without duplicates: the links of
    the primary selector in the order found, followed by links offered by
    the elements of the fallback selector, cut at [num_articles]. What it
    returns is the first [num_articles] distinct links of the sequence made
    of the links of the article headings followed by the links of the
    fallback elements (those read before one of them raises): every fallback
    link is used, after the primary ones, unless it repeats an earlier link
    or the list is full. *)
Theorem get_article_links_outcome (driver : WebDriver) (num_articles : nat) :
  match get driver "https://elpais.com/opinion/" with
  | Raise e => get_article_links driver num_articles = Raise e
  | Ok page =>
      match check_language page with
      | Raise e => get_article_links driver num_articles = Raise e
      | Ok _ =>
          ∃ links,
            get_article_links driver num_articles = Ok links
            ∧ NoDup links
            ∧ (length links ≤ num_articles)%nat
            ∧ (∃ extra,
                 links = take num_articles
                           (primary_links page num_articles ++ extra)
                 ∧ ∀ h, h ∈ extra →
                     offered h (find_elements page "h2 a[href*='/opinion/']"))
            ∧ links = take num_articles
                        (distinct (article_hrefs page ++ fallback_hrefs page))
      end
  end.
Proof.
  unfold get_article_links.
  destruct (get driver _) as [page|e]; [| done]. simpl.
  destruct (check_language page) as [es|e]; [| done]. simpl.
  pose proof (primary_links_NoDup page num_articles) as Hnd.
  destruct (with_fallback_spec page num_articles _ Hnd) as [Hnd' Hpre].
  destruct (with_fallback_extra page num_articles
              (primary_links page num_articles)) as (extra & Hextra & Hoff).
  eexists. split; [done |]. split_and!.
  - by apply NoDup_take.
  - rewrite length_take. lia.
  - exists extra. by rewrite <- Hextra.
  - apply collected_take.
Qed.

(** On the example listing: two primary links, then one from the fallback;
    a listing without links gives the empty list. *)
Lemma get_article_links_examples :
  get_article_links (driver_of site (Ok tt) (Ok tt)) 5
  = Ok [ "https://elpais.com/opinion/a"; "https://elpais.com/opinion/b";
         "https://elpais.com/opinion/c" ]
  ∧ primary_links listing_page 5
    = [ "https://elpais.com/opinion/a"; "https://elpais.com/opinion/b" ]
  ∧ get_article_links (driver_of site (Ok tt) (Ok tt)) 2
    = Ok [ "https://elpais.com/opinion/a"; "https://elpais.com/opinion/b" ]
  ∧ get_article_links (driver_of empty_site (Ok tt) (Ok tt)) 5 = Ok [].
Proof. repeat split; reflexivity. Qed.

(** C4 as stated fails: when the navigation raises, so does
    [get_article_links]. *)
Lemma get_article_links_raises_offline :
  get_article_links offline_driver 5 = Raise "WebDriverException".
Proof. reflexivity. Qed.


(** A successful download, a refused one, and the records around them. *)
Lemma download_image_examples :
  download_image good_world "https://img.example/c.png" 2
  = Ok (Some "/app/images/article_3_cover.png")
  ∧ download_image missing_image_world "https://img.example/c.png" 2 = Ok None
  ∧ scrape_single_article missing_image_world (driver_of site (Ok tt) (Ok tt))
      "https://elpais.com/opinion/c" 2
    = Ok {| url := "https://elpais.com/opinion/c";
            title := "(could not extract title)"; content := "";
            image_path := None |}
  ∧ scrape_single_article read_only_world (driver_of site (Ok tt) (Ok tt))
      "https://elpais.com/opinion/c" 2
    = Ok {| url := "https://elpais.com/opinion/c";
            title := "(could not extract title)"; content := "";
            image_path := None |}
  ∧ file_extension "image/webp" = "webp"
  ∧ file_extension "image/jpeg" = "jpg"
  ∧ file_extension "" = "jpg".
Proof. repeat split; reflexivity. Qed.


End scraper_claims.

(** ** browserstack_runner.py: one target *)

Module runner_facts.
Import Py scraper browserstack_runner runner_spec.

Ltac run_stmt :=
  unfold run_single_browser, run_single_browser_stmt, try_finally, try_catch,
    pipeline, report_and_close, call, set_driver, set_status, set_reason,
    locals, entry, mbind, Stmt_bind, mret, Stmt_ret; simpl.

(** A run in which the session was created. *)
Lemma run_created (env : Env) (browser_config : BrowserConfig) (d : WebDriver) :
  create_driver env browser_config = Ok d →
  run_single_browser env browser_config =
  let '(st, rs, steps) := verdict env (scrape_articles (world env) d 5) in
  (match quit d with
   | Ok _ => Ok {| browser := name browser_config; status := st; reason := rs |}
   | Raise e => Raise e
   end,
   [CreateDriver; ScrapeArticles] ++ steps
   ++ [ExecuteScript (status_script st rs); Quit]).
Proof.
  intros Hd. run_stmt. rewrite Hd. unfold verdict, english_titles.
  destruct (scrape_articles (world env) d 5) as [[|a l]|e]; simpl;
    try destruct (analyzer.find_repeated_words_of _) as [repeated|e0]; simpl;
    destruct (execute_script d _) as [[]|e1]; simpl;
    destruct (quit d) as [[]|e2]; reflexivity.
Qed.

(** A run in which no session could be created. *)
Lemma run_not_created (env : Env) (browser_config : BrowserConfig) (e : string) :
  create_driver env browser_config = Raise e →
  run_single_browser env browser_config =
  (Ok {| browser := name browser_config; status := "failed"; reason := e |},
   [CreateDriver]).
Proof. intros Hd. run_stmt. by rewrite Hd. Qed.

Lemma quits_app (tr tr' : list Event) : quits (tr ++ tr') = quits tr + quits tr'.
Proof. unfold quits. by rewrite filter_app, length_app. Qed.

Lemma verdict_steps (env : Env) (outcome : Res (list Article)) :
  let '(st, rs, steps) := verdict env outcome in
  quits steps = 0
  ∧ (translated steps ↔ ∃ a l, outcome = Ok (a :: l))
  ∧ (analyzed steps ↔ ∃ a l, outcome = Ok (a :: l)).
Proof.
  assert (Hnil : ∀ A (P : list A → Event), ¬ ∃ ts, P ts ∈ @nil Event).
  { intros A P [ts Hts]. by apply elem_of_nil in Hts. }
  unfold translated, analyzed.
  destruct outcome as [[|a l]|e]; simpl.
  - split_and!; [done | |]; split;
      [intros H; by apply Hnil in H | by intros (? & ? & ?)
      |intros H; by apply Hnil in H | by intros (? & ? & ?)].
  - destruct (analyzer.find_repeated_words_of _);
      (split_and!; [done | |]); (split; [by eauto |]); intros _; eexists;
      try (by left); right; by left.
  - split_and!; [done | |]; split;
      [intros H; by apply Hnil in H | by intros (? & ? & ?)
      |intros H; by apply Hnil in H | by intros (? & ? & ?)].
Qed.

End runner_facts.

Module runner_claims.
Import Py scraper browserstack_runner runner_spec runner_facts examples.

(** Scraping only navigates: the outcome of [execute_script] plays no part. *)
Lemma scrape_articles_with_execute_script (w : World) (d : WebDriver)
    (outcome : string → Res unit) (count : nat) :
  scrape_articles w (with_execute_script outcome d) count
  = scrape_articles w d count.
Proof.
  unfold scrape_articles.
  change (get_article_links (with_execute_script outcome d) count)
    with (get_article_links d count).
  destruct (get_article_links d count) as [urls|e]; [| done]. simpl.
  generalize (@nil Article) 0. induction urls as [|u urls IH]; intros acc i.
  - done.
  - simpl.
    change (scrape_single_article w (with_execute_script outcome d) u i)
      with (scrape_single_article w d u i).
    destruct (scrape_single_article w d u i); simpl; [apply IH | done].
Qed.

Ltac no_such_event :=
  let ts := fresh "ts" in
  let Hts := fresh "Hts" in
  intros [ts Hts];
  repeat (apply elem_of_cons in Hts as [Hts|Hts]; [discriminate |]);
  by apply elem_of_nil in Hts.

(** C5. Whenever [create_driver] gave a session, [run_single_browser] calls
    [driver.quit()] exactly once, as its last call and right after the
    attempt to report the status, whatever happened before: scraping that
    succeeds, finds nothing or raises, and a status report that raises. The
    outcome of the status report changes neither the result nor the calls
    made; the function raises only if [quit] itself does. *)
Theorem quit_exactly_once (env : Env) (browser_config : BrowserConfig)
    (driver : WebDriver) :
  create_driver env browser_config = Ok driver →
  (∃ before script,
     (run_single_browser env browser_config).2
     = before ++ [ExecuteScript script; Quit]
     ∧ quits before = 0)
  ∧ quits (run_single_browser env browser_config).2 = 1
  ∧ (∀ outcome : string → Res unit,
       run_single_browser
         (with_Remote (λ _ _, Ok (with_execute_script outcome driver)) env)
         browser_config
       = run_single_browser env browser_config)
  ∧ match (run_single_browser env browser_config).1 with
    | Ok r => quit driver = Ok tt ∧ browser r = name browser_config
    | Raise e => quit driver = Raise e
    end.
Proof.
  intros Hd. rewrite (run_created _ _ _ Hd).
  pose proof (verdict_steps env (scrape_articles (world env) driver 5)) as Hv.
  destruct (verdict env (scrape_articles (world env) driver 5))
    as [[st rs] steps] eqn:Hverdict.
  destruct Hv as (Hq & _ & _). cbn [fst snd]. split_and!.
  - exists ([CreateDriver; ScrapeArticles] ++ steps), (status_script st rs).
    split; [by rewrite <- (assoc_L (++)) |].
    by rewrite quits_app, Hq.
  - by rewrite !quits_app, Hq.
  - intros outcome.
    assert (Hd' : create_driver
                    (with_Remote (λ _ _, Ok (with_execute_script outcome driver)) env)
                    browser_config
                  = Ok (with_execute_script outcome driver)).
    { unfold create_driver in *. simpl.
      by destruct (bstack_caps (BS_USER env) (BS_KEY env) browser_config). }
    rewrite (run_created _ _ _ Hd').
    change (world (with_Remote _ env)) with (world env).
    rewrite scrape_articles_with_execute_script.
    change (verdict (with_Remote (λ _ _, Ok (with_execute_script outcome driver)) env))
      with (verdict env).
    by rewrite Hverdict.
  - by destruct (quit driver) as [[]|e].
Qed.

Lemma quit_exactly_once_witness :
  let driver := driver_of site (Raise "script timeout") (Ok tt) in
  create_driver (env_of driver) chrome = Ok driver
  ∧ quits (run_single_browser (env_of driver) chrome).2 = 1
  ∧ (run_single_browser (env_of driver) chrome).1
    = Ok {| browser := "Chrome on Windows 11"; status := "passed";
            reason := "Scraped 3 articles successfully" |}.
Proof.
  simpl. split; [reflexivity |].
  split; [| reflexivity].
  exact (proj1 (proj2 (quit_exactly_once
    (env_of (driver_of site (Raise "script timeout") (Ok tt))) chrome
    (driver_of site (Raise "script timeout") (Ok tt)) eq_refl))).
Defined.

(** C6. [run_single_browser] translates the titles and analyzes them
    exactly when at least one article was extracted. With at least one
    article and no exception from the analysis, the status is "passed" and
    the reason states how many articles were scraped; with a session and no
    article the status is "failed", the reason is
    "Could not scrape any articles", and neither translation nor analysis
    takes place. The status and reason are those sent to the session and,
    unless closing the session raises, those returned. With at least one
    article the calls are, in this order: the session, the scrape, one
    translation, of the titles of the articles scraped, from Spanish to
    English, one analysis, of the list that translation returned, the status
    report and the close; the status and the reason are decided by that
    analysis: "passed" when it returns, "failed" with its exception as the
    reason when it raises. *)
Theorem translation_iff_articles (env : Env) (browser_config : BrowserConfig) :
  let r := (run_single_browser env browser_config).1 in
  let tr := (run_single_browser env browser_config).2 in
  let articles := extracted env browser_config in
  (translated tr ↔ articles ≠ [])
  ∧ (analyzed tr ↔ articles ≠ [])
  ∧ (articles ≠ [] →
     raised (analyzer.find_repeated_words_of (english_titles env articles))
     = false →
     let why :=
       "Scraped " +:+ pretty (length articles) +:+ " articles successfully" in
     ExecuteScript (status_script "passed" why) ∈ tr
     ∧ match r with
       | Ok rr => status rr = "passed" ∧ reason rr = why
       | Raise e =>
           ∃ d, create_driver env browser_config = Ok d ∧ quit d = Raise e
       end)
  ∧ (∀ d, create_driver env browser_config = Ok d →
          scrape_articles (world env) d 5 = Ok [] →
          ¬ translated tr ∧ ¬ analyzed tr
          ∧ ExecuteScript
              (status_script "failed" "Could not scrape any articles") ∈ tr
          ∧ match r with
            | Ok rr =>
                status rr = "failed"
                ∧ reason rr = "Could not scrape any articles"
            | Raise e => quit d = Raise e
            end)
  ∧ (articles ≠ [] →
     let titles_spanish := map title articles in
     let titles_english :=
       translator.translate_titles (RAPIDAPI_KEY env) (requests_post env)
         (print env) titles_spanish "es" "en" in
     let analysis := analyzer.find_repeated_words_of titles_english in
     let st := if raised analysis then "failed" else "passed" in
     let rs :=
       match analysis with
       | Ok _ =>
           "Scraped " +:+ pretty (length articles) +:+ " articles successfully"
       | Raise e => e
       end in
     tr = [ CreateDriver; ScrapeArticles;
            TranslateTitles titles_spanish;
            FindRepeatedWords titles_english;
            ExecuteScript (status_script st rs); Quit ]
     ∧ (∀ rr, r = Ok rr → status rr = st ∧ reason rr = rs)).
Proof.
  intros r tr articles. subst r tr articles. unfold extracted.
  destruct (create_driver env browser_config) as [d|e] eqn:Hd.
  - rewrite (run_created _ _ _ Hd).
    destruct (scrape_articles (world env) d 5) as [[|a l]|e] eqn:Hs;
      cbn [verdict].
    + cbn [fst snd app]. split_and!.
      * split; [no_such_event | done].
      * split; [no_such_event | done].
      * done.
      * intros d' [= <-] _. split_and!; [no_such_event | no_such_event | |].
        -- do 2 right. by left.
        -- by destruct (quit d) as [[]|e].
      * done.
    + unfold english_titles.
      destruct (analyzer.find_repeated_words_of
                  (translator.translate_titles (RAPIDAPI_KEY env)
                     (requests_post env) (print env) (map title (a :: l))
                     "es" "en"))
        as [repeated|e]; cbn [fst snd app]; split_and!.
      * split; [done |]. intros _. eexists. do 2 right. by left.
      * split; [done |]. intros _. eexists. do 3 right. by left.
      * intros _ _. split.
        -- do 4 right. by left.
        -- destruct (quit d) as [[]|e] eqn:Hq; [done | by exists d].
      * intros d' [= <-]. by rewrite Hs.
      * intros _. cbn [raised]. split; [done |].
        intros rr. by destruct (quit d) as [[]|e]; [intros [= <-] |].
      * split; [done |]. intros _. eexists. do 2 right. by left.
      * split; [done |]. intros _. eexists. do 3 right. by left.
      * done.
      * intros d' [= <-]. by rewrite Hs.
      * intros _. cbn [raised]. split; [done |].
        intros rr. by destruct (quit d) as [[]|e0]; [intros [= <-] |].
    + cbn [fst snd app]. split_and!.
      * split; [no_such_event | done].
      * split; [no_such_event | done].
      * done.
      * intros d' [= <-]. by rewrite Hs.
      * done.
  - rewrite (run_not_created _ _ _ Hd). cbn [fst snd]. split_and!.
    + split; [no_such_event | done].
    + split; [no_such_event | done].
    + done.
    + done.
    + done.
Qed.

(** Three articles, then none. *)
Lemma run_single_browser_examples :
  run_single_browser (env_of (driver_of site (Ok tt) (Ok tt))) chrome
  = (Ok {| browser := "Chrome on Windows 11"; status := "passed";
           reason := "Scraped 3 articles successfully" |},
     [ CreateDriver; ScrapeArticles;
       TranslateTitles ["Un titulo"; ""; "(could not extract title)"];
       FindRepeatedWords [PStr "A title"; PStr "A title"; PStr "A title"];
       ExecuteScript (status_script "passed" "Scraped 3 articles successfully");
       Quit ])
  ∧ run_single_browser (env_of (driver_of empty_site (Ok tt) (Ok tt))) chrome
    = (Ok {| browser := "Chrome on Windows 11"; status := "failed";
             reason := "Could not scrape any articles" |},
       [ CreateDriver; ScrapeArticles;
         ExecuteScript
           (status_script "failed" "Could not scrape any articles");
         Quit ])
  ∧ run_single_browser (env_null_of (driver_of site (Ok tt) (Ok tt))) chrome
    = (Ok {| browser := "Chrome on Windows 11"; status := "failed";
             reason :=
               "sequence item 0: expected str instance, NoneType found" |},
       [ CreateDriver; ScrapeArticles;
         TranslateTitles ["Un titulo"; ""; "(could not extract title)"];
         FindRepeatedWords
           [PNonStr "NoneType"; PNonStr "NoneType"; PNonStr "NoneType"];
         ExecuteScript
           (status_script "failed"
              "sequence item 0: expected str instance, NoneType found");
         Quit ]).
Proof. repeat split; reflexivity. Qed.

End runner_claims.

(** ** browserstack_runner.py: all targets *)

Module orchestrator_facts.
Import Py scraper browserstack_runner runner_spec.

(** The loop appends one result per completed future. *)
Lemma collect_settles (names : gmap nat string) (completed : list Future) :
  ∀ results,
    Forall (λ f, is_Some (names !! fid f)) completed →
    collect names completed results = Ok (results ++ (settle names <$> completed)).
Proof.
  induction completed as [|f rest IH]; intros results Hnames; simpl.
  - by rewrite (right_id_L [] (++)).
  - apply Forall_cons in Hnames as [[n Hn] Hrest].
    rewrite Hn. simpl. rewrite IH by done.
    unfold settle at 2. rewrite Hn. simpl.
    destruct (result f); by rewrite <- (assoc_L (++)).
Qed.

Lemma future_to_name_lookup (browsers : list BrowserConfig) (i : nat) :
  future_to_name browsers !! i = name <$> browsers !! i.
Proof.
  unfold future_to_name. by rewrite lookup_map_seq_0, list_lookup_fmap.
Qed.

(** Every submitted future has its name in the dict. *)
Lemma submitted_named (envs : nat → Env) (browsers : list BrowserConfig) :
  Forall (λ f, is_Some (future_to_name browsers !! fid f))
    (submit_all envs browsers).
Proof.
  apply Forall_forall. intros f Hf. unfold submit_all in Hf.
  apply elem_of_lookup_imap in Hf as (i & b & -> & Hb).
  simpl. rewrite future_to_name_lookup, Hb. by eexists.
Qed.

(** Settling the futures in submission order gives each target its due. *)
Lemma settle_submitted (envs : nat → Env) (browsers : list BrowserConfig) :
  settle (future_to_name browsers) <$> submit_all envs browsers
  = imap (result_for envs) browsers.
Proof.
  unfold submit_all. rewrite fmap_imap. apply imap_ext.
  intros i b Hb. unfold settle, result_for. simpl.
  by rewrite future_to_name_lookup, Hb.
Qed.

End orchestrator_facts.

Module orchestrator_claims.
Import Py scraper browserstack_runner runner_spec orchestrator_facts examples.

(** C1. Whatever the order in which the futures complete,
    [run_all_browsers] returns without raising, with exactly one result per
    configured target: the worker's own result, or, when the worker raised,
    a result with status "error" carrying that target's name and the
    exception's message. The results are those of the targets up to
    order. *)
Theorem run_all_one_result_per_target (browsers : list BrowserConfig)
    (envs : nat → Env) (as_completed : list Future → list Future) :
  (∀ futures, as_completed futures ≡ₚ futures) →
  ∃ results,
    run_all browsers envs as_completed = Ok results
    ∧ length results = length browsers
    ∧ results ≡ₚ imap (result_for envs) browsers
    ∧ (∀ i b e,
         browsers !! i = Some b →
         (run_single_browser (envs i) b).1 = Raise e →
         {| browser := name b; status := "error"; reason := e |} ∈ results)
    ∧ (∀ i b r,
         browsers !! i = Some b →
         (run_single_browser (envs i) b).1 = Ok r →
         r ∈ results).
Proof.
  intros Hperm. unfold run_all.
  set (futures := submit_all envs browsers).
  assert (Hnamed : Forall (λ f, is_Some (future_to_name browsers !! fid f))
                     (as_completed futures)).
  { rewrite Hperm. apply submitted_named. }
  rewrite (collect_settles _ _ [] Hnamed). simpl.
  assert (Hres : settle (future_to_name browsers) <$> as_completed futures
                 ≡ₚ imap (result_for envs) browsers).
  { rewrite Hperm. subst futures. by rewrite settle_submitted. }
  eexists. split; [done |].
  split; [by rewrite Hres, length_imap |].
  split; [done |].
  split.
  - intros i b e Hb Hraise. rewrite Hres.
    apply elem_of_lookup_imap. exists i, b. split; [| done].
    unfold result_for. by rewrite Hraise.
  - intros i b r Hb Hok. rewrite Hres.
    apply elem_of_lookup_imap. exists i, b. split; [| done].
    unfold result_for. by rewrite Hok.
Qed.

Lemma run_all_one_result_per_target_witness :
  let envs := λ i : nat,
    match i with
    | 0 => env_of (driver_of site (Ok tt) (Raise "session lost"))
    | _ => env_of (driver_of empty_site (Ok tt) (Ok tt))
    end in
  (∀ futures : list Future, reverse futures ≡ₚ futures)
  ∧ ∃ results,
      run_all_browsers envs reverse = Ok results
      ∧ length results = 5
      ∧ {| browser := "Chrome on Windows 11"; status := "error";
           reason := "session lost" |} ∈ results.
Proof.
  intros envs.
  split; [intros futures; apply reverse_Permutation |].
  destruct (run_all_one_result_per_target BROWSERS envs reverse
              (λ futures, reverse_Permutation futures))
    as (results & Hrun & Hlen & _ & Herr & _).
  exists results. split; [exact Hrun |]. split; [exact Hlen |].
  exact (Herr 0 _ "session lost" eq_refl eq_refl).
Defined.

End orchestrator_claims.

(** ** More on analyzer.py *)

Module analyzer_more_facts.
Import Py Py_facts analyzer analyzer_spec analyzer_facts analyzer_more_spec.

Lemma chars_snoc (cur : string) (c : ascii) :
  chars (cur +:+ String c EmptyString) = chars cur ++ [c].
Proof. induction cur as [|d cur IH]; simpl; [done | by rewrite IH]. Qed.

(** A token is made of characters of the text that are not whitespace. *)
Lemma split_from_chars (s : string) :
  ∀ cur w ch, w ∈ split_from cur s → ch ∈ chars w →
    ch ∈ chars cur ∨ (ch ∈ chars s ∧ isspace ch = false).
Proof.
  assert (Hflush : ∀ cur w, w ∈ flush cur → w = cur).
  { intros [|c cur] w; simpl; [by intros ?%elem_of_nil |].
    by intros ->%list_elem_of_singleton. }
  induction s as [|c s IH]; intros cur w ch; simpl.
  - intros ->%Hflush ?. by left.
  - destruct (isspace c) eqn:Hc.
    + rewrite elem_of_app. intros [->%Hflush|Hw] Hch; [by left |].
      destruct (IH _ _ _ Hw Hch) as [[]%elem_of_nil|[? ?]].
      right. split; [by right | done].
    + intros Hw Hch. destruct (IH _ _ _ Hw Hch) as [Hcur|[? ?]].
      * rewrite chars_snoc in Hcur. apply elem_of_app in Hcur as [?|Hcur].
        -- by left.
        -- apply list_elem_of_singleton in Hcur as ->. right.
           split; [by left | done].
      * right. split; [by right | done].
Qed.

Lemma re_sub_delete_chars cls (s : string) (ch : ascii) :
  ch ∈ chars (re_sub_delete cls s) → ch ∈ chars s ∧ cls ch = false.
Proof.
  induction s as [|c s IH]; simpl; [by intros ?%elem_of_nil |].
  destruct (cls c) eqn:Hc; simpl.
  - intros [? ?]%IH. split; [by right | done].
  - intros [->|[? ?]%IH]%elem_of_cons; (split; [| done]); [by left | by right].
Qed.

Lemma lower_chars (s : string) (ch : ascii) :
  ch ∈ chars (lower s) → ∃ c, ch = lower_char c.
Proof.
  induction s as [|c s IH]; simpl; [by intros ?%elem_of_nil |].
  intros [->|?]%elem_of_cons; eauto.
Qed.

(** What survives lowering, the deletion and the split is a letter a-z. *)
Lemma kept_char_lowercase (c : ascii) :
  not_letter_nor_space (lower_char c) = false →
  isspace (lower_char c) = false →
  lowercase_letter (lower_char c) = true.
Proof.
  destruct c as [[] [] [] [] [] [] [] []]; vm_compute; intros; congruence.
Qed.

Lemma lower_char_idemp (c : ascii) : lower_char (lower_char c) = lower_char c.
Proof. destruct c as [[] [] [] [] [] [] [] []]; reflexivity. Qed.

Lemma lower_idemp (s : string) : lower (lower s) = lower s.
Proof.
  induction s as [|c s IH]; simpl; [done |]. by rewrite lower_char_idemp, IH.
Qed.

Lemma lower_join (hs : list string) :
  lower (join " " hs) = join " " (lower <$> hs).
Proof.
  induction hs as [|h [|h' t] IH]; [done | done |].
  change (lower <$> h :: h' :: t) with (lower h :: lower h' :: (lower <$> t)).
  rewrite !join_two, !lower_app. simpl lower at 2.
  change (lower h' :: (lower <$> t)) with (lower <$> h' :: t).
  by rewrite <- IH.
Qed.

Lemma meaningful_words_lower (hs : list string) :
  meaningful_words (lower <$> hs) = meaningful_words hs.
Proof.
  unfold meaningful_words. simpl. by rewrite <- lower_join, lower_idemp.
Qed.

Lemma meaningful_words_bind (hs : list string) :
  meaningful_words hs
  = filter (λ w, (w ∉ STOP_WORDS) ∧ (1 < String.length w)%nat)
      (hs ≫= header_words).
Proof.
  unfold meaningful_words. simpl.
  fold (header_words (join " " hs)). by rewrite words_of_join.
Qed.

Lemma meaningful_words_app (hs hs' : list string) :
  meaningful_words (hs ++ hs') = meaningful_words hs ++ meaningful_words hs'.
Proof. by rewrite !meaningful_words_bind, bind_app, filter_app. Qed.

Lemma occurrences_app (w : string) (ws ws' : list string) :
  occurrences w (ws ++ ws') = occurrences w ws + occurrences w ws'.
Proof. unfold occurrences. by rewrite filter_app, length_app. Qed.

Lemma occurrences_pos (w : string) (ws : list string) :
  0 < occurrences w ws → w ∈ ws.
Proof.
  unfold occurrences. induction ws as [|x ws IH]; simpl; [lia |].
  rewrite filter_cons. case_decide as Hx.
  - intros _. subst. by left.
  - intros ?. right. by apply IH.
Qed.

End analyzer_more_facts.

Module analyzer_more.
Import Py Py_facts analyzer analyzer_spec analyzer_facts analyzer_more_spec
  analyzer_more_facts.

(** X1. Every entry of the map returned by [find_repeated_words] has a
    count of at least 3 and a key that is no stop-word, has at least two
    characters and is made of the letters a-z only: upper case, digits,
    punctuation and accented letters never reach a key. *)
Theorem repeated_word_shape (headers : list string) (w : string) (c : nat) :
  find_repeated_words headers !! w = Some c →
  (3 ≤ c)%nat
  ∧ (w ∉ STOP_WORDS)
  ∧ (2 ≤ String.length w)%nat
  ∧ Forall (λ ch, lowercase_letter ch = true) (chars w).
Proof.
  rewrite find_repeated_words_lookup. simpl.
  case_decide as Hc; [| done]. intros [= <-].
  assert (Hw : w ∈ meaningful_words headers) by (apply occurrences_pos; lia).
  unfold meaningful_words in Hw. simpl in Hw.
  apply list_elem_of_filter in Hw as [[Hstop Hlen] Hw].
  split_and!; [lia | done | lia |].
  apply Forall_forall. intros ch Hch.
  destruct (split_from_chars _ _ _ _ Hw Hch) as [[]%elem_of_nil|[Hin Hsp]].
  apply re_sub_delete_chars in Hin as [Hin Hkeep].
  apply lower_chars in Hin as [c0 ->].
  by apply kept_char_lowercase.
Qed.

Lemma repeated_word_shape_witness :
  find_repeated_words ["Vote, VOTE: vote!"; "no no no"; "X x x"] !! "vote"
  = Some 3
  ∧ ("vote" ∉ STOP_WORDS)
  ∧ find_repeated_words ["Vote, VOTE: vote!"; "no no no"; "X x x"]
    = {[ "vote" := 3 ]}.
Proof.
  assert (H : find_repeated_words ["Vote, VOTE: vote!"; "no no no"; "X x x"]
              !! "vote" = Some 3) by (by vm_compute).
  split; [exact H |].
  split; [exact (proj1 (proj2 (repeated_word_shape _ _ _ H))) |].
  by vm_compute.
Defined.

(** X2. [find_repeated_words] ignores case: two lists of headers that are
    equal once every header is lowercased give the same map. *)
Theorem find_repeated_words_case_insensitive (headers headers' : list string) :
  lower <$> headers = lower <$> headers' →
  find_repeated_words headers = find_repeated_words headers'.
Proof.
  intros Heq. unfold find_repeated_words.
  by rewrite <- (meaningful_words_lower headers),
    <- (meaningful_words_lower headers'), Heq.
Qed.

Lemma find_repeated_words_case_insensitive_witness :
  lower <$> ["Tax TAX tax"; "Rise"] = lower <$> ["tax Tax TaX"; "RISE"]
  ∧ find_repeated_words ["Tax TAX tax"; "Rise"]
    = find_repeated_words ["tax Tax TaX"; "RISE"].
Proof.
  split; [reflexivity |].
  exact (find_repeated_words_case_insensitive
           ["Tax TAX tax"; "Rise"] ["tax Tax TaX"; "RISE"] eq_refl).
Defined.

(** X3. Words never straddle two headers, so counts add up: the number of
    counted occurrences of a word in [headers ++ headers'] is the sum of
    those in [headers] and in [headers']. Hence more headers never remove a
    repeated word nor lower its count. *)
Theorem find_repeated_words_app (headers headers' : list string) (w : string) :
  occurrences w (meaningful_words (headers ++ headers'))
  = occurrences w (meaningful_words headers)
    + occurrences w (meaningful_words headers')
  ∧ ∀ c, find_repeated_words headers !! w = Some c →
         ∃ c', find_repeated_words (headers ++ headers') !! w = Some c'
               ∧ (c ≤ c')%nat.
Proof.
  assert (Hsum : occurrences w (meaningful_words (headers ++ headers'))
                 = occurrences w (meaningful_words headers)
                   + occurrences w (meaningful_words headers'))
    by (by rewrite meaningful_words_app, occurrences_app).
  split; [done |]. intros c.
  rewrite !find_repeated_words_lookup. simpl. rewrite Hsum.
  case_decide; [| done]. intros [= <-].
  eexists. split; [| apply Nat.le_add_r]. case_decide; [done | lia].
Qed.

End analyzer_more.

(** ** analyzer.py: iteration order and display *)

Module analyzer_display_facts.
Import Py analyzer analyzer_spec analyzer_facts analyzer_more_facts
  analyzer_display.

Lemma first_appearances_snoc (ws : list string) (w : string) :
  first_appearances (ws ++ [w])
  = if decide (w ∈ first_appearances ws) then first_appearances ws
    else first_appearances ws ++ [w].
Proof.
  unfold first_appearances. rewrite reverse_snoc. simpl.
  destruct (decide_rel elem_of w (reverse ws)) as [Hin|Hin].
  - rewrite decide_True; [done |].
    by rewrite elem_of_reverse, elem_of_remove_dups.
  - rewrite decide_False, reverse_cons; [done |].
    by rewrite elem_of_reverse, elem_of_remove_dups.
Qed.

Lemma elem_of_first_appearances (ws : list string) (w : string) :
  w ∈ first_appearances ws ↔ w ∈ ws.
Proof.
  unfold first_appearances.
  by rewrite elem_of_reverse, elem_of_remove_dups, elem_of_reverse.
Qed.

Lemma NoDup_first_appearances (ws : list string) : NoDup (first_appearances ws).
Proof.
  unfold first_appearances. rewrite reverse_Permutation.
  apply NoDup_remove_dups.
Qed.

(** Bumping a key in a dict given by its keys and a count function. *)
Lemma bump_tabulated (f : string → nat) (w : string) (keys : list string) :
  NoDup keys →
  bump w ((λ k, (k, f k)) <$> keys)
  = if decide (w ∈ keys)
    then (λ k, (k, if decide (k = w) then S (f k) else f k)) <$> keys
    else ((λ k, (k, f k)) <$> keys) ++ [(w, 1)].
Proof.
  induction keys as [|k keys IH]; intros Hnd.
  - by destruct (decide (w ∈ [])) as [?%elem_of_nil|].
  - apply NoDup_cons in Hnd as [Hk Hnd]. rewrite fmap_cons. simpl.
    case_bool_decide as Hkw.
    + subst k. destruct (decide (w ∈ w :: keys)) as [_|Hn];
        [| exfalso; apply Hn; by left].
      destruct (decide (w = w)); [| done]. f_equal.
      apply list_fmap_ext. intros i k Hi. f_equal.
      destruct (decide (k = w)) as [->|]; [| done].
      exfalso. apply Hk. by eapply list_elem_of_lookup_2.
    + rewrite IH by done. destruct (decide (w ∈ keys)) as [Hin|Hin].
      * destruct (decide (w ∈ k :: keys)) as [_|Hn];
          [| exfalso; apply Hn; by right].
        simpl. by destruct (decide (k = w)).
      * destruct (decide (w ∈ k :: keys)) as [[->|?]%elem_of_cons|_]; done.
Qed.

Lemma occurrences_snoc (w x : string) (ws : list string) :
  occurrences w (ws ++ [x])
  = if decide (x = w) then S (occurrences w ws) else occurrences w ws.
Proof.
  rewrite occurrences_app, occurrences_cons.
  change (occurrences w []) with 0. case_decide; lia.
Qed.

Lemma occurrences_0 (w : string) (ws : list string) :
  w ∉ ws → occurrences w ws = 0.
Proof.
  intros Hw. destruct (occurrences w ws) eqn:Ho; [done |].
  exfalso. apply Hw, occurrences_pos. lia.
Qed.

Lemma occurrences_elem (w : string) (ws : list string) :
  w ∈ ws → 0 < occurrences w ws.
Proof.
  unfold occurrences. induction ws as [|x ws IH]; [by intros ?%elem_of_nil |].
  rewrite filter_cons. intros [->|?]%elem_of_cons.
  - rewrite decide_True by done. simpl. lia.
  - case_decide; simpl; [lia | by apply IH].
Qed.

(** The items of a [Counter]: the distinct words in order of first
    appearance, each with its number of occurrences. *)
Lemma Counter_items_tabulated (ws : list string) :
  Counter_items ws = (λ w, (w, occurrences w ws)) <$> first_appearances ws.
Proof.
  unfold Counter_items.
  induction ws as [|x ws IH] using rev_ind; [done |].
  rewrite foldl_snoc, IH, first_appearances_snoc.
  rewrite bump_tabulated by apply NoDup_first_appearances.
  destruct (decide (x ∈ first_appearances ws)) as [Hx|Hx].
  - apply list_fmap_ext. intros i k _. f_equal.
    rewrite occurrences_snoc. by repeat case_decide.
  - rewrite fmap_app. simpl. f_equal.
    + apply list_fmap_ext. intros i k Hk. f_equal.
      rewrite occurrences_snoc. rewrite decide_False; [done |].
      intros ->. by eapply Hx, list_elem_of_lookup_2.
    + rewrite occurrences_snoc, decide_True by done.
      rewrite occurrences_0; [done |]. by rewrite <- elem_of_first_appearances.
Qed.

Lemma insert_desc_Permutation x l : insert_desc x l ≡ₚ x :: l.
Proof.
  induction l as [|y l IH]; simpl; [done |].
  destruct (x.2 <? y.2)%nat; [| done].
  by rewrite IH, Permutation_swap.
Qed.

Lemma sorted_desc_Permutation l : sorted_desc l ≡ₚ l.
Proof.
  induction l as [|x l IH]; simpl; [done |].
  by rewrite insert_desc_Permutation, IH.
Qed.

Lemma insert_desc_sorted x l :
  StronglySorted count_ge l →
  StronglySorted count_ge (insert_desc x l).
Proof.
  induction l as [|y l IH]; intros Hs; simpl.
  - repeat constructor.
  - apply StronglySorted_cons in Hs as [Hy Hs].
    destruct (x.2 <? y.2)%nat eqn:Hxy.
    + apply Nat.ltb_lt in Hxy. apply StronglySorted_cons. split; [| by apply IH].
      rewrite insert_desc_Permutation. constructor; [unfold count_ge; lia | done].
    + apply Nat.ltb_ge in Hxy. apply StronglySorted_cons. split.
      * constructor; [by unfold count_ge |]. eapply Forall_impl; [exact Hy |].
        unfold count_ge. intros z ?. lia.
      * by apply StronglySorted_cons.
Qed.

Lemma sorted_desc_sorted l :
  StronglySorted count_ge (sorted_desc l).
Proof.
  induction l as [|x l IH]; simpl; [constructor | by apply insert_desc_sorted].
Qed.

(** Stability: the items of one count keep their order. *)
Lemma insert_desc_stable (c : nat) x l :
  StronglySorted count_ge l →
  filter (λ kv : string * nat, kv.2 = c) (insert_desc x l)
  = filter (λ kv : string * nat, kv.2 = c) (x :: l).
Proof.
  induction l as [|y l IH]; intros Hs; simpl; [done |].
  apply StronglySorted_cons in Hs as [Hy Hs].
  destruct (x.2 <? y.2)%nat eqn:Hxy; [| done].
  apply Nat.ltb_lt in Hxy.
  rewrite (filter_cons _ y), IH, !filter_cons by done.
  repeat case_decide; try done; lia.
Qed.

Lemma sorted_desc_stable (c : nat) l :
  filter (λ kv : string * nat, kv.2 = c) (sorted_desc l)
  = filter (λ kv : string * nat, kv.2 = c) l.
Proof.
  induction l as [|x l IH]; simpl; [done |].
  rewrite insert_desc_stable by apply sorted_desc_sorted.
  by rewrite !filter_cons, IH.
Qed.

End analyzer_display_facts.

Module analyzer_display_props.
Import Py analyzer analyzer_spec analyzer_facts analyzer_more_facts
  analyzer_display analyzer_display_facts.

(** X4. The dict returned by [find_repeated_words], taken in iteration
    order, lists the repeated words in order of first appearance among the
    counted tokens, each with its number of occurrences; as a mapping it is
    the map of the frequency analysis. *)
Theorem repeated_items_in_order_of_appearance (headers : list string) :
  let ws := meaningful_words headers in
  repeated_items headers
  = (λ w, (w, occurrences w ws))
    <$> filter (λ w, 2 < occurrences w ws) (first_appearances ws)
  ∧ NoDup (repeated_items headers).*1
  ∧ list_to_map (repeated_items headers) = find_repeated_words headers.
Proof.
  intros ws.
  assert (Hitems : repeated_items headers
            = (λ w, (w, occurrences w ws))
              <$> filter (λ w, 2 < occurrences w ws) (first_appearances ws)).
  { unfold repeated_items. fold ws. rewrite Counter_items_tabulated.
    generalize (first_appearances ws). intros l.
    induction l as [|k l IH]; [done |].
    rewrite fmap_cons, !filter_cons. simpl.
    case_decide; [by rewrite fmap_cons, IH | done]. }
  assert (Hkeys : ∀ l : list string,
            ((λ w, (w, occurrences w ws)) <$> l).*1 = l).
  { intros l. induction l as [|k l IH]; [done |].
    rewrite !fmap_cons. simpl. by f_equal. }
  assert (Hnd : NoDup (repeated_items headers).*1).
  { rewrite Hitems, Hkeys. apply NoDup_filter, NoDup_first_appearances. }
  split; [done |]. split; [done |].
  apply map_eq. intros w. rewrite find_repeated_words_lookup. simpl. fold ws.
  case_decide as Hw.
  - apply elem_of_list_to_map; [done |]. rewrite Hitems.
    apply list_elem_of_fmap. exists w. split; [done |].
    apply list_elem_of_filter. split; [done |].
    apply elem_of_first_appearances, occurrences_pos. lia.
  - apply not_elem_of_list_to_map. rewrite Hitems, Hkeys.
    by intros [? _]%list_elem_of_filter.
Qed.

(** X5. [print_repeated_words] returns its argument. For an empty dict it
    prints one line; otherwise it prints two heading lines and then one line
    per entry, by descending count, entries of equal count in the order of
    the dict. *)
Theorem print_repeated_words_lines (repeated : list (string * nat)) :
  (print_repeated_words repeated).2 = repeated
  ∧ match repeated with
    | [] => length (print_repeated_words repeated).1 = 1
    | _ =>
        ∃ order,
          (print_repeated_words repeated).1
          = [ nl +:+ "Repeated words (appearing more than twice):";
              dashes 40 ] ++ (occurrence_line <$> order)
          ∧ order ≡ₚ repeated
          ∧ StronglySorted count_ge order
          ∧ ∀ c, filter (λ kv, kv.2 = c) order
                 = filter (λ kv, kv.2 = c) repeated
    end.
Proof.
  split; [done |]. destruct repeated as [|kv rest]; [done |].
  exists (sorted_desc (kv :: rest)). split_and!.
  - done.
  - apply sorted_desc_Permutation.
  - apply sorted_desc_sorted.
  - intros c. apply sorted_desc_stable.
Qed.

(** The display of the analysis of four headers. *)
Lemma print_repeated_words_example :
  (print_repeated_words
     (repeated_items ["tax tax vote"; "Vote: tax rise"; "a vote, a rise";
                      "rise and rise"])).1
  = [ nl +:+ "Repeated words (appearing more than twice):"; dashes 40;
      "   'rise' - 4 occurrences";
      "   'tax' - 3 occurrences";
      "   'vote' - 3 occurrences" ].
Proof. by vm_compute. Qed.

End analyzer_display_props.

(** ** More on scraper.py: the links *)

Module scraper_links_facts.
Import Py scraper extractor_spec scraper_facts scraper_more_spec.

(** What [add_link] does, by cases on the candidate. *)
(** The loops never hold more links than asked for. *)
Lemma primary_loop_length (n : nat) (articles : list WebElement) :
  ∀ links, length links < n → (length (primary_loop n articles links) ≤ n)%nat.
Proof.
  induction articles as [|art rest IH]; intros links Hlen; simpl; [lia |].
  destruct (_ ≫= _) as [href|e]; [| by apply IH].
  destruct (add_link_cases n href links) as [(h & _ & _ & _ & ->)|[_ ->]].
  - destruct (n <=? S (length links))%nat eqn:Hle.
    + apply Nat.leb_le in Hle. rewrite length_app. simpl. lia.
    + apply Nat.leb_gt in Hle. apply IH. rewrite length_app. simpl. lia.
  - by apply IH.
Qed.

Lemma fallback_loop_length (n : nat) (anchors : list WebElement) :
  ∀ links, length links < n → (length (fallback_loop n anchors links) ≤ n)%nat.
Proof.
  induction anchors as [|a rest IH]; intros links Hlen; simpl; [lia |].
  destruct (get_attribute a "href") as [href|e]; [| lia].
  destruct (add_link_cases n href links) as [(h & _ & _ & _ & ->)|[_ ->]].
  - destruct (n <=? S (length links))%nat eqn:Hle.
    + apply Nat.leb_le in Hle. rewrite length_app. simpl. lia.
    + apply Nat.leb_gt in Hle. apply IH. rewrite length_app. simpl. lia.
  - by apply IH.
Qed.

Lemma collected_length (page : Page) (n : nat) :
  (1 ≤ n)%nat → (length (with_fallback page n (primary_links page n)) ≤ n)%nat.
Proof.
  intros Hn.
  assert (Hprim : (length (primary_links page n) ≤ n)%nat).
  { unfold primary_links. destruct (find_elements page "article").
    - apply primary_loop_length. simpl. lia.
    - simpl. lia. }
  unfold with_fallback.
  destruct (length (primary_links page n) <? n)%nat eqn:Hlt; [| done].
  apply Nat.ltb_lt in Hlt.
  destruct (find_elements page _); [| done].
  by apply fallback_loop_length.
Qed.

(** What a successful call returned. *)
Lemma get_article_links_Ok (driver : WebDriver) (n : nat) (links : list string) :
  get_article_links driver n = Ok links →
  ∃ page, get driver "https://elpais.com/opinion/" = Ok page
          ∧ links = take n (with_fallback page n (primary_links page n)).
Proof.
  unfold get_article_links.
  destruct (get driver _) as [page|e]; [| done]. simpl.
  destruct (check_language page) as [b|e]; [| done]. simpl.
  intros [= <-]. by exists page.
Qed.

(** Every link the primary loop holds is non-empty and was offered. *)
Lemma primary_loop_from (n : nat) (articles : list WebElement) (P : string → Prop) :
  (∀ h, h ∈ omap (λ art, href_of (find_element_in art "h2 a")) articles → P h) →
  ∀ links, Forall P links → Forall P (primary_loop n articles links).
Proof.
  induction articles as [|art rest IH]; intros HP links Hl; simpl; [done |].
  simpl in HP. unfold href_of at 1 in HP.
  destruct (_ ≫= _) as [href|e].
  - destruct (add_link_cases n href links) as [(h & -> & Hh & _ & ->)|[_ ->]].
    + assert (P h).
      { apply HP. destruct h; [done |]. simpl. by left. }
      assert (Forall P (links ++ [h])) by (apply Forall_app; by repeat constructor).
      destruct (n <=? _)%nat; [done |]. apply IH; [| done].
      intros h' Hh'. apply HP. destruct h; [done |]. simpl. by right.
    + apply IH; [| done]. intros h' Hh'. apply HP.
      destruct href as [[|? ?]|]; simpl; try done. by right.
  - apply IH; [| done]. done.
Qed.

Lemma fallback_loop_from (n : nat) (anchors : list WebElement) (P : string → Prop) :
  (∀ h, h ∈ omap (λ a, href_of (Ok a)) anchors → P h) →
  ∀ links, Forall P links → Forall P (fallback_loop n anchors links).
Proof.
  induction anchors as [|a rest IH]; intros HP links Hl; simpl; [done |].
  simpl in HP. unfold href_of at 1 in HP. simpl in HP.
  destruct (get_attribute a "href") as [href|e]; [| done].
  destruct (add_link_cases n href links) as [(h & -> & Hh & _ & ->)|[_ ->]].
  - assert (P h).
    { apply HP. destruct h; [done |]. simpl. by left. }
    assert (Forall P (links ++ [h])) by (apply Forall_app; by repeat constructor).
    destruct (n <=? _)%nat; [done |]. apply IH; [| done].
    intros h' Hh'. apply HP. destruct h; [done |]. simpl. by right.
  - apply IH; [| done]. intros h' Hh'. apply HP.
    destruct href as [[|? ?]|]; simpl; try done. by right.
Qed.

Lemma href_of_nonempty (a : Res WebElement) (h : string) :
  href_of a = Some h → h ≠ "".
Proof.
  unfold href_of. destruct (_ ≫= _) as [[[|c s]|]|e]; simpl; try done.
  by intros [= <-].
Qed.

(** An offered link is collected, unless the loop stopped on a full list. *)
Lemma primary_loop_complete (n : nat) (articles : list WebElement) (h : string) :
  ∀ links,
    h ∈ links ∨ h ∈ omap (λ art, href_of (find_element_in art "h2 a")) articles →
    h ∈ primary_loop n articles links
    ∨ (n ≤ length (primary_loop n articles links))%nat.
Proof.
  induction articles as [|art rest IH]; intros links Hh; simpl.
  - destruct Hh as [?|[]%elem_of_nil]. by left.
  - simpl in Hh. unfold href_of at 1 in Hh.
    destruct (_ ≫= _) as [href|e].
    + destruct (add_link_cases n href links)
        as [(h0 & -> & Hne & Hnotin & ->)|[Hold ->]].
      * destruct (n <=? S (length links))%nat eqn:Hle.
        -- right. apply Nat.leb_le in Hle. rewrite length_app. simpl. lia.
        -- apply IH. destruct Hh as [?|Hh].
           ++ left. apply elem_of_app. by left.
           ++ destruct h0; [done |]. simpl in Hh.
              apply elem_of_cons in Hh as [->|?]; [| by right].
              left. apply elem_of_app. right. by left.
      * apply IH. destruct Hh as [?|Hh]; [by left |].
        destruct href as [[|c s]|]; simpl in Hh; [by right | | by right].
        apply elem_of_cons in Hh as [->|?]; [| by right].
        left. destruct (Hold _ eq_refl) as [?|?]; done.
    + apply IH. destruct Hh as [?|?]; [by left | by right].
Qed.

End scraper_links_facts.

Module scraper_links.
Import Py scraper extractor_spec scraper_facts scraper_more_spec
  scraper_links_facts examples.

(** X6. For a request of at least one link the loops of
    [get_article_links] never hold more than [num_articles] links, so the
    final slice changes nothing; asked for zero links the function still
    loads the listing and returns the empty list. *)
Theorem get_article_links_slice (driver : WebDriver) (num_articles : nat)
    (links : list string) :
  get_article_links driver num_articles = Ok links →
  ∃ page,
    get driver "https://elpais.com/opinion/" = Ok page
    ∧ ((1 ≤ num_articles)%nat →
       links = with_fallback page num_articles (primary_links page num_articles))
    ∧ (num_articles = 0 → links = []).
Proof.
  intros (page & Hget & ->)%get_article_links_Ok.
  exists page. split; [done |]. split.
  - intros Hn. apply take_ge. by apply collected_length.
  - by intros ->.
Qed.

Lemma get_article_links_slice_witness :
  let driver := driver_of site (Ok tt) (Ok tt) in
  get_article_links driver 2
  = Ok ["https://elpais.com/opinion/a"; "https://elpais.com/opinion/b"]
  ∧ with_fallback listing_page 2 (primary_links listing_page 2)
    = ["https://elpais.com/opinion/a"; "https://elpais.com/opinion/b"].
Proof.
  simpl. split; [reflexivity |].
  destruct (get_article_links_slice (driver_of site (Ok tt) (Ok tt)) 2 _ eq_refl)
    as (page & Hpage & Hlinks & _).
  injection Hpage as <-. symmetry. apply Hlinks. lia.
Defined.

(** X7. Every link [get_article_links] returns is a non-empty [href] that
    was read, without an exception, from the heading link of an article of
    the listing or from an element of the fallback selector. *)
Theorem get_article_links_offered (driver : WebDriver) (num_articles : nat)
    (links : list string) :
  get_article_links driver num_articles = Ok links →
  ∃ page,
    get driver "https://elpais.com/opinion/" = Ok page
    ∧ Forall (λ h, h ≠ ""
                   ∧ (h ∈ article_hrefs page
                      ∨ offered h (find_elements page "h2 a[href*='/opinion/']")))
        links.
Proof.
  intros (page & Hget & ->)%get_article_links_Ok.
  exists page. split; [done |].
  apply Forall_take.
  set (P := λ h : string, h ≠ ""
              ∧ (h ∈ article_hrefs page
                 ∨ offered h (find_elements page "h2 a[href*='/opinion/']"))).
  assert (Hprim : Forall P (primary_links page num_articles)).
  { unfold primary_links, P, article_hrefs.
    destruct (find_elements page "article") as [articles|e]; [| done].
    apply primary_loop_from; [| done].
    intros h Hh. split; [| by left].
    apply list_elem_of_omap in Hh as (art & _ & Hh).
    by eapply href_of_nonempty. }
  unfold with_fallback. destruct (_ <? _)%nat; [| done].
  destruct (find_elements page "h2 a[href*='/opinion/']") as [anchors|e] eqn:Hf;
    [| done].
  apply fallback_loop_from; [| done].
  intros h Hh. apply list_elem_of_omap in Hh as (a & Ha & Hh).
  split; [by eapply href_of_nonempty |]. right.
  exists anchors, a. split_and!; [done.. |].
  unfold href_of in Hh. simpl in Hh.
  destruct (get_attribute a "href") as [[[|c s]|]|e]; simpl in Hh; try done.
  by injection Hh as <-.
Qed.

Lemma get_article_links_offered_witness :
  get_article_links (driver_of site (Ok tt) (Ok tt)) 5
  = Ok [ "https://elpais.com/opinion/a"; "https://elpais.com/opinion/b";
         "https://elpais.com/opinion/c" ]
  ∧ article_hrefs listing_page
    = [ "https://elpais.com/opinion/a"; "https://elpais.com/opinion/a";
        "https://elpais.com/opinion/b" ].
Proof.
  split; [reflexivity |].
  destruct (get_article_links_offered (driver_of site (Ok tt) (Ok tt)) 5 _ eq_refl)
    as (page & Hpage & _).
  injection Hpage as <-. reflexivity.
Defined.

(** X8. No link offered by the heading of an article is lost: it is among
    the links returned, unless as many links as asked for were returned. *)
Theorem get_article_links_complete (driver : WebDriver) (num_articles : nat)
    (links : list string) (page : Page) (h : string) :
  get driver "https://elpais.com/opinion/" = Ok page →
  get_article_links driver num_articles = Ok links →
  h ∈ article_hrefs page →
  h ∈ links ∨ length links = num_articles.
Proof.
  intros Hget (page' & Hget' & ->)%get_article_links_Ok Hh.
  rewrite Hget in Hget'. injection Hget' as <-.
  destruct num_articles as [|n]; [by right |].
  rewrite take_ge by (apply collected_length; lia).
  assert (Hprim : h ∈ primary_links page (S n)
                  ∨ (S n ≤ length (primary_links page (S n)))%nat).
  { unfold primary_links, article_hrefs in *.
    destruct (find_elements page "article") as [articles|e];
      [| by apply elem_of_nil in Hh].
    apply primary_loop_complete. by right. }
  pose proof (primary_links_NoDup page (S n)) as Hnd.
  destruct (with_fallback_spec page (S n) _ Hnd) as [_ [extra Hpre]].
  pose proof (collected_length page (S n) ltac:(lia)) as Hlen.
  rewrite Hpre in *. destruct Hprim as [?|?].
  - left. apply elem_of_app. by left.
  - right. rewrite length_app in *. lia.
Qed.

Lemma get_article_links_complete_witness :
  let driver := driver_of site (Ok tt) (Ok tt) in
  "https://elpais.com/opinion/b" ∈ article_hrefs listing_page
  ∧ get_article_links driver 1 = Ok ["https://elpais.com/opinion/a"]
  ∧ ("https://elpais.com/opinion/b" ∈ ["https://elpais.com/opinion/a"]
     ∨ length ["https://elpais.com/opinion/a"] = 1).
Proof.
  simpl.
  assert (Hb : "https://elpais.com/opinion/b" ∈ article_hrefs listing_page).
  { do 2 right. by left. }
  split; [exact Hb |]. split; [reflexivity |].
  exact (get_article_links_complete (driver_of site (Ok tt) (Ok tt)) 1
           _ listing_page _ eq_refl eq_refl Hb).
Defined.

End scraper_links.

(** ** More on scraper.py: the records *)

Module scraper_records_facts.
Import Py scraper extractor_spec scraper_facts scraper_more_spec
  scraper_links_facts.

(** The loop of [scrape_articles], when every navigation succeeds. *)
Lemma scrape_loop_Ok (w : World) (driver : WebDriver) (urls : list string) :
  ∀ i results arts,
    scrape_loop w driver i urls results = Ok arts →
    ∃ news,
      arts = results ++ news
      ∧ length news = length urls
      ∧ ∀ k u, urls !! k = Some u →
          ∃ page, get driver u = Ok page
                  ∧ news !! k = Some (record_of w page u (i + k)).
Proof.
  induction urls as [|u urls IH]; intros i results arts; simpl.
  - intros [= <-]. exists []. split; [by rewrite (right_id_L [] (++)) |].
    split; [done |]. intros k u' Hk. by rewrite lookup_nil in Hk.
  - unfold scrape_single_article.
    destruct (get driver u) as [page|e] eqn:Hget; [| done]. simpl.
    intros (news & -> & Hlen & Hnews)%IH.
    exists (record_of w page u i :: news).
    split; [by rewrite <- (assoc_L (++)) |]. split; [simpl; by rewrite Hlen |].
    intros [|k] u' Hk; simpl in Hk.
    + injection Hk as <-. exists page. by rewrite Nat.add_0_r.
    + destruct (Hnews k u' Hk) as (page' & ? & ?). exists page'.
      split; [done |]. simpl. by replace (i + S k) with (S i + k) by lia.
Qed.

(** The loop stops at the first navigation that raises. *)
Lemma scrape_loop_Raise (w : World) (driver : WebDriver) (urls : list string)
    (k : nat) (u e : string) :
  urls !! k = Some u →
  get driver u = Raise e →
  (∀ j u', j < k → urls !! j = Some u' → raised (get driver u') = false) →
  ∀ i results, scrape_loop w driver i urls results = Raise e.
Proof.
  revert k. induction urls as [|u0 urls IH]; intros k Hk Hget Hbefore i results.
  - by rewrite lookup_nil in Hk.
  - simpl. unfold scrape_single_article. destruct k as [|k]; simpl in Hk.
    + injection Hk as ->. by rewrite Hget.
    + pose proof (Hbefore 0 u0 ltac:(lia) eq_refl) as H0.
      destruct (get driver u0) as [page|e0]; [| done]. simpl.
      apply (IH k); [done.. |].
      intros j u' Hj Hu'. apply (Hbefore (S j)); [lia | done].
Qed.

Lemma lstrip_idemp (s : string) : lstrip (lstrip s) = lstrip s.
Proof.
  induction s as [|c s IH]; simpl; [done |].
  destruct (isspace c) eqn:Hc; [done |]. simpl. by rewrite Hc.
Qed.

Lemma rstrip_idemp (s : string) : rstrip (rstrip s) = rstrip s.
Proof.
  induction s as [|c s IH]; simpl; [done |].
  destruct (rstrip s) as [|d r] eqn:Hr.
  - destruct (isspace c) eqn:Hc; simpl; [done |]. by rewrite Hc.
  - simpl in *. by rewrite IH.
Qed.

(** Stripping the right end leaves a stripped left end alone. *)
Lemma lstrip_rstrip (t : string) :
  lstrip t = t → lstrip (rstrip t) = rstrip t.
Proof.
  destruct t as [|c t]; simpl; [done |].
  destruct (isspace c) eqn:Hc.
  - intros Heq. exfalso.
    assert (Hlen : ∀ s, (String.length (lstrip s) ≤ String.length s)%nat).
    { clear. intros s. induction s as [|d s IH]; simpl; [lia |].
      destruct (isspace d); simpl; lia. }
    pose proof (Hlen t) as Ht. rewrite Heq in Ht. simpl in Ht. lia.
  - intros _. destruct (rstrip t); simpl; by rewrite Hc.
Qed.

Lemma strip_idemp (s : string) : strip (strip s) = strip s.
Proof.
  unfold strip.
  rewrite (lstrip_rstrip (lstrip s)) by apply lstrip_idemp.
  apply rstrip_idemp.
Qed.

Lemma stripped_text_stripped (e : WebElement) (t : string) :
  stripped_text e = Ok t → strip t = t.
Proof.
  unfold stripped_text. destruct (text e) as [t0|e0]; [| done]. simpl.
  intros [= <-]. apply strip_idemp.
Qed.

Lemma text_parts_stripped (paragraphs : list WebElement) :
  ∀ parts, text_parts paragraphs = Ok parts →
    Forall (λ p, p ≠ "" ∧ strip p = p) parts.
Proof.
  induction paragraphs as [|p rest IH]; intros parts; simpl.
  - by intros [= <-].
  - destruct (stripped_text p) as [t|e] eqn:Ht; [| done]. simpl.
    destruct t as [|c t]; [by apply IH |]. simpl.
    destruct (text_parts rest) as [ps|e]; [| done]. simpl.
    intros [= <-]. constructor; [| by apply IH].
    split; [done |]. by eapply stripped_text_stripped.
Qed.

(** The parts are the stripped texts of the paragraphs, the blank ones
    left out. *)
Lemma text_parts_texts (paragraphs : list WebElement) :
  ∀ texts, Forall2 (λ p t, text p = Ok t) paragraphs texts →
    text_parts paragraphs = Ok (filter (λ t, t ≠ EmptyString) (strip <$> texts)).
Proof.
  induction paragraphs as [|p rest IH]; intros texts Hall.
  - apply Forall2_nil_inv_l in Hall as ->. done.
  - apply Forall2_cons_inv_l in Hall as (t & texts' & Ht & Hrest & ->).
    cbn [text_parts]. unfold stripped_text. rewrite Ht. simpl.
    rewrite filter_cons, (IH _ Hrest).
    case_decide as Hblank.
    + by destruct (strip t).
    + by rewrite Hblank.
Qed.

(** One paragraph whose text cannot be read spoils the whole content. *)
Lemma text_parts_raises (paragraphs : list WebElement) (p : WebElement) :
  p ∈ paragraphs → raised (text p) = true → raised (text_parts paragraphs) = true.
Proof.
  intros Hin Hp. induction paragraphs as [|q rest IH]; [by apply elem_of_nil in Hin |].
  cbn [text_parts]. unfold stripped_text.
  apply elem_of_cons in Hin as [<-|Hin].
  - by destruct (text p).
  - specialize (IH Hin). destruct (text q) as [t|e]; [| done]. simpl.
    destruct (strip t); [done |]. simpl.
    by destruct (text_parts rest).
Qed.

(** The content, from the paragraphs it is read from. *)
Lemma extract_content_paragraphs (page : Page) :
  extract_content page =
  match paragraphs_of page ≫= text_parts with
  | Ok parts => join (String (ascii_of_nat 10) EmptyString) parts
  | Raise _ => "(could not extract content)"
  end.
Proof.
  unfold extract_content, paragraphs_of.
  match goal with
  | |- context [find_elements page (?a +:+ ?b)] =>
      destruct (find_elements page (a +:+ b)) as [ps|e]; [| done]
  end.
  simpl. destruct ps as [|p ps].
  - destruct (find_elements page "article p") as [ps|e]; [| done]. simpl.
    by destruct (text_parts ps).
  - change (mret (p :: ps) ≫= _) with
      (text_parts (p :: ps) ≫= λ parts,
         mret (join (String (ascii_of_nat 10) EmptyString) parts)).
    change (Ok (p :: ps) ≫= text_parts) with (text_parts (p :: ps)).
    by destruct (text_parts (p :: ps)).
Qed.

(** The record at position [k] of a scrape. *)
Lemma scrape_articles_nth (w : World) (driver : WebDriver) (count : nat)
    (arts : list Article) (k : nat) (a : Article) :
  scrape_articles w driver count = Ok arts →
  arts !! k = Some a →
  ∃ page, get driver (url a) = Ok page ∧ a = record_of w page (url a) k.
Proof.
  unfold scrape_articles.
  destruct (get_article_links driver count) as [links|e]; [| done]. simpl.
  intros (news & -> & Hlen & Hnews)%scrape_loop_Ok Ha. simpl in Ha.
  assert (Hk : k < length links).
  { rewrite <- Hlen. by eapply lookup_lt_Some. }
  apply lookup_lt_is_Some in Hk as [u Hu].
  destruct (Hnews k u Hu) as (page & Hget & Hk). simpl in Hk.
  rewrite Ha in Hk. injection Hk as ->. by exists page.
Qed.

(** Decimal numerals are made of digits. *)
Lemma pretty_N_go_digits (x : N) :
  ∀ s, all_digits s = true → all_digits (pretty_N_go x s) = true.
Proof.
  induction (N.lt_wf_0 x) as [x _ IH]; intros s Hs.
  assert (x = 0 ∨ 0 < x)%N as [->|Hx] by lia; [by rewrite pretty_N_go_0 |].
  rewrite pretty_N_go_step by done. apply IH; [by apply N.div_lt |].
  simpl. rewrite Hs, andb_true_r.
  unfold pretty_N_char. by repeat case_match.
Qed.

Lemma pretty_nat_digits (n : nat) : all_digits (pretty n) = true.
Proof.
  unfold pretty, pretty_nat, pretty, pretty_N.
  case_decide; [done |]. by apply pretty_N_go_digits.
Qed.

Lemma append_cancel_l (a x y : string) : a +:+ x = a +:+ y → x = y.
Proof. induction a as [|c a IH]; simpl; [done |]. intros [= ?]. by apply IH. Qed.

(** Two numerals followed by an underscore agree only if they are equal. *)
Lemma digits_underscore (a b r r' : string) :
  all_digits a = true → all_digits b = true →
  a +:+ String "_" r = b +:+ String "_" r' → a = b.
Proof.
  revert b. induction a as [|c a IH]; intros [|d b]; simpl.
  - done.
  - intros _ [Hd _]%andb_true_iff [= <- _]. done.
  - intros [Hc _]%andb_true_iff _ [= -> _]. done.
  - intros [_ Ha]%andb_true_iff [_ Hb]%andb_true_iff [= -> Heq].
    f_equal. by eapply IH.
Qed.

Lemma cover_path_inj (dir ext ext' : string) (i j : nat) :
  path_join dir (cover_filename i ext) = path_join dir (cover_filename j ext') →
  i = j.
Proof.
  unfold path_join, cover_filename. intros Heq.
  apply append_cancel_l in Heq.
  apply (append_cancel_l "/article_") in Heq.
  apply digits_underscore in Heq; [| apply pretty_nat_digits..].
  apply (inj pretty) in Heq. lia.
Qed.

(** The path a download returns. *)
Lemma download_image_path (w : World) (img_url : string) (idx : nat) (p : string) :
  download_image w img_url idx = Ok (Some p) →
  ∃ ext, p = path_join (IMAGE_DIR w) (cover_filename idx ext).
Proof.
  unfold download_image, ensure_image_dir.
  destruct (makedirs w) as [[]|e]; [| done]. simpl.
  destruct (requests_get w img_url) as [resp|e]; [| done]. simpl.
  destruct (raise_for_status resp) as [[]|e]; [| done]. simpl.
  destruct (save_to resp _) as [[]|e]; [| done]. simpl.
  intros [= <-]. by eexists.
Qed.

End scraper_records_facts.

Module scraper_records.
Import Py scraper extractor_spec scraper_facts scraper_more_spec
  scraper_links_facts scraper_records_facts examples examples_more.

(** X9. When [scrape_articles] returns, it returns one record per link of
    [get_article_links], in the same order: the record at position [k] has
    the [k]-th link as its [url] and was extracted from the page loaded for
    that link, its image being numbered [k]. So there are at most [count]
    records and no two of them have the same [url]. *)
Theorem scrape_articles_records (w : World) (driver : WebDriver) (count : nat)
    (arts : list Article) :
  scrape_articles w driver count = Ok arts →
  ∃ links,
    get_article_links driver count = Ok links
    ∧ url <$> arts = links
    ∧ (length arts ≤ count)%nat
    ∧ NoDup (url <$> arts)
    ∧ ∀ k a, arts !! k = Some a →
        ∃ page, get driver (url a) = Ok page
                ∧ a = record_of w page (url a) k.
Proof.
  unfold scrape_articles.
  destruct (get_article_links driver count) as [links|e] eqn:Hlinks; [| done].
  simpl. intros (news & -> & Hlen & Hnews)%scrape_loop_Ok. simpl.
  exists links. split; [done |].
  assert (Hurls : url <$> news = links).
  { apply list_eq. intros k. rewrite list_lookup_fmap.
    destruct (links !! k) as [u|] eqn:Hk.
    - destruct (Hnews k u Hk) as (page & _ & ->). done.
    - apply lookup_ge_None in Hk.
      rewrite (proj2 (lookup_ge_None news k)); [done | lia]. }
  apply get_article_links_Ok in Hlinks as (page0 & _ & Hl).
  assert (Hnd : NoDup links).
  { rewrite Hl. apply NoDup_take, with_fallback_spec, primary_links_NoDup. }
  assert (Hcount : (length links ≤ count)%nat).
  { rewrite Hl, length_take. lia. }
  split_and!; [done | lia | by rewrite Hurls |].
  intros k a Ha.
  assert (Hu : links !! k = Some (url a)).
  { by rewrite <- Hurls, list_lookup_fmap, Ha. }
  destruct (Hnews k _ Hu) as (page & Hget & Hk).
  exists page. split; [done |]. rewrite Ha in Hk. by injection Hk.
Qed.

Lemma scrape_articles_records_witness :
  ∃ arts,
    scrape_articles good_world (driver_of site (Ok tt) (Ok tt)) 5 = Ok arts
    ∧ url <$> arts
      = [ "https://elpais.com/opinion/a"; "https://elpais.com/opinion/b";
          "https://elpais.com/opinion/c" ].
Proof.
  eexists. split; [reflexivity |].
  destruct (scrape_articles_records good_world
              (driver_of site (Ok tt) (Ok tt)) 5 _ eq_refl)
    as (links & Hlinks & Hurls & _).
  rewrite Hurls. by injection Hlinks.
Defined.

(** X10. One article whose page cannot be loaded aborts the whole scrape:
    [scrape_articles] raises the exception of the first link whose
    navigation raises, and returns none of the records extracted before. *)
Theorem scrape_articles_aborts (w : World) (driver : WebDriver) (count : nat)
    (links : list string) (k : nat) (u e : string) :
  get_article_links driver count = Ok links →
  links !! k = Some u →
  get driver u = Raise e →
  (∀ j u', j < k → links !! j = Some u' → raised (get driver u') = false) →
  scrape_articles w driver count = Raise e.
Proof.
  intros Hlinks Hk Hget Hbefore. unfold scrape_articles.
  rewrite Hlinks. simpl. by eapply scrape_loop_Raise.
Qed.

Lemma scrape_articles_aborts_witness :
  let driver := driver_of broken_site (Ok tt) (Ok tt) in
  get_article_links driver 5
  = Ok ["https://elpais.com/opinion/x"; "https://elpais.com/opinion/y"]
  ∧ get driver "https://elpais.com/opinion/y" = Raise "WebDriverException"
  ∧ scrape_articles good_world driver 5 = Raise "WebDriverException".
Proof.
  intros driver. split; [reflexivity |]. split; [reflexivity |].
  apply (scrape_articles_aborts good_world driver 5
           ["https://elpais.com/opinion/x"; "https://elpais.com/opinion/y"]
           1 "https://elpais.com/opinion/y" "WebDriverException");
    [reflexivity.. |].
  intros [|j] u' Hj Hu; [| lia]. injection Hu as <-. reflexivity.
Defined.

(** The title and the text parts carry no surrounding whitespace. *)
Lemma extract_title_stripped (page : Page) :
  strip (extract_title page) = extract_title page.
Proof.
  unfold extract_title.
  destruct (wait_presence page _) as [h1|e]; simpl.
  { destruct (stripped_text h1) as [t|e] eqn:Ht; [by eapply stripped_text_stripped |].
    destruct (find_element page "h1.a_t") as [h2|e2]; simpl.
    - destruct (stripped_text h2) as [t|e3] eqn:Ht2;
        [by eapply stripped_text_stripped |].
      destruct (find_element page "h1") as [h3|e4]; simpl; [| done].
      by destruct (stripped_text h3) as [t|e5] eqn:Ht3;
        [eapply stripped_text_stripped |].
    - destruct (find_element page "h1") as [h3|e4]; simpl; [| done].
      by destruct (stripped_text h3) as [t|e5] eqn:Ht3;
        [eapply stripped_text_stripped |]. }
  destruct (find_element page "h1.a_t") as [h2|e2]; simpl.
  - destruct (stripped_text h2) as [t|e3] eqn:Ht2;
      [by eapply stripped_text_stripped |].
    destruct (find_element page "h1") as [h3|e4]; simpl; [| done].
    by destruct (stripped_text h3) as [t|e5] eqn:Ht3;
      [eapply stripped_text_stripped |].
  - destruct (find_element page "h1") as [h3|e4]; simpl; [| done].
    by destruct (stripped_text h3) as [t|e5] eqn:Ht3;
      [eapply stripped_text_stripped |].
Qed.

(** X11. The title of every record [scrape_single_article] produces has no
    leading or trailing whitespace: stripping it again changes nothing. *)
Theorem record_title_stripped (w : World) (driver : WebDriver) (url : string)
    (idx : nat) (a : Article) :
  scrape_single_article w driver url idx = Ok a →
  strip (title a) = title a.
Proof.
  unfold scrape_single_article.
  destruct (get driver url) as [page|e]; [| done]. simpl.
  intros [= <-]. apply extract_title_stripped.
Qed.

Lemma record_title_stripped_witness :
  ∃ a,
    scrape_single_article good_world (driver_of site (Ok tt) (Ok tt))
      "https://elpais.com/opinion/a" 0 = Ok a
    ∧ text (element " Un titulo " []) = Ok " Un titulo "
    ∧ title a = "Un titulo"
    ∧ strip (title a) = title a.
Proof.
  eexists. split; [reflexivity |]. split; [reflexivity |].
  split; [reflexivity |].
  exact (record_title_stripped good_world (driver_of site (Ok tt) (Ok tt))
           "https://elpais.com/opinion/a" 0 _ eq_refl).
Defined.

(** X12. The content of a record is read from the paragraphs of the
    content area of the page or, when there are none, from every paragraph
    of the article. When the paragraphs are found and each has a text, the
    content is the newline-join of those texts with their surrounding
    whitespace removed, in the order of the page, the blank ones skipped.
    When the paragraphs cannot be looked up, or the text of one of them
    cannot be read, the content is the sentinel
    "(could not extract content)". In any case the content is the sentinel
    or a newline-join of texts that are non-empty and have no surrounding
    whitespace. *)
Theorem extract_content_parts (page : Page) :
  (extract_content page = "(could not extract content)"
   ∨ ∃ parts,
       extract_content page = join (String (ascii_of_nat 10) EmptyString) parts
       ∧ Forall (λ p, p ≠ "" ∧ strip p = p) parts)
  ∧ (∀ paragraphs texts,
       paragraphs_of page = Ok paragraphs →
       Forall2 (λ p t, text p = Ok t) paragraphs texts →
       extract_content page =
       join (String (ascii_of_nat 10) EmptyString)
         (filter (λ t, t ≠ EmptyString) (strip <$> texts)))
  ∧ (raised (paragraphs_of page) = true →
     extract_content page = "(could not extract content)")
  ∧ (∀ paragraphs p,
       paragraphs_of page = Ok paragraphs →
       p ∈ paragraphs →
       raised (text p) = true →
       extract_content page = "(could not extract content)").
Proof.
  rewrite extract_content_paragraphs. split_and!.
  - destruct (paragraphs_of page) as [ps|e]; [| by left]. simpl.
    change (Ok ps ≫= text_parts) with (text_parts ps).
    destruct (text_parts ps) as [parts|e] eqn:Hparts; [| by left].
    right. exists parts. split; [done |]. by eapply text_parts_stripped.
  - intros ps texts -> Hall.
    change (Ok ps ≫= text_parts) with (text_parts ps).
    by rewrite (text_parts_texts _ _ Hall).
  - by destruct (paragraphs_of page).
  - intros ps p -> Hin Hp.
    change (Ok ps ≫= text_parts) with (text_parts ps).
    pose proof (text_parts_raises _ _ Hin Hp) as Hr.
    by destruct (text_parts ps).
Qed.

(** X13. Within one scrape no two records share an image path: the cover
    of the article at position [i] is saved as [article_<i+1>_cover.<ext>],
    so a later article never overwrites the image of an earlier one. *)
Theorem image_paths_distinct (w : World) (driver : WebDriver) (count : nat)
    (arts : list Article) (i j : nat) (a b : Article) (p q : string) :
  scrape_articles w driver count = Ok arts →
  arts !! i = Some a →
  arts !! j = Some b →
  i ≠ j →
  image_path a = Some p →
  image_path b = Some q →
  p ≠ q.
Proof.
  intros Hs Ha Hb Hij Hp Hq.
  destruct (scrape_articles_nth _ _ _ _ _ _ Hs Ha) as (pa & _ & Hra).
  destruct (scrape_articles_nth _ _ _ _ _ _ Hs Hb) as (pb & _ & Hrb).
  rewrite Hra in Hp. rewrite Hrb in Hq. simpl in Hp, Hq.
  apply extract_image_Some in Hp as (ua & (ea & ->)%download_image_path).
  apply extract_image_Some in Hq as (ub & (eb & ->)%download_image_path).
  intros Heq. by apply cover_path_inj in Heq.
Qed.

Lemma image_paths_distinct_witness :
  let driver := driver_of covers_site (Ok tt) (Ok tt) in
  scrape_articles good_world driver 5
  = Ok [ {| url := "https://elpais.com/opinion/x";
            title := "(could not extract title)"; content := "";
            image_path := Some "/app/images/article_1_cover.png" |};
         {| url := "https://elpais.com/opinion/y";
            title := "(could not extract title)"; content := "";
            image_path := Some "/app/images/article_2_cover.png" |} ]
  ∧ "/app/images/article_1_cover.png" ≠ "/app/images/article_2_cover.png".
Proof.
  intros driver. split; [reflexivity |].
  exact (image_paths_distinct good_world driver 5 _ 0 1 _ _ _ _
           eq_refl eq_refl eq_refl (O_S 0) eq_refl eq_refl).
Defined.

End scraper_records.

(** ** More on browserstack_runner.py and main.py *)

Module runner_more_facts.
Import Py scraper browserstack_runner runner_spec runner_facts
  orchestrator_facts translator translator_spec translator_facts
  analyzer analyzer_facts runner_more_spec.


(** The result of a run that returned carries the name of its target and
    one of two statuses. *)
Lemma run_returned (env : Env) (browser_config : BrowserConfig) (r : RunResult) :
  (run_single_browser env browser_config).1 = Ok r →
  browser r = name browser_config
  ∧ (status r = "passed" ∨ status r = "failed").
Proof.
  destruct (create_driver env browser_config) as [d|e] eqn:Hd.
  - rewrite (run_created _ _ _ Hd).
    destruct (scrape_articles (world env) d 5) as [[|a l]|e]; cbn [verdict].
    + cbn [fst]. destruct (quit d); [| done]. intros [= <-]. split; [done | by right].
    + destruct (find_repeated_words_of _); cbn [fst];
        (destruct (quit d); [| done]); intros [= <-];
        (split; [done |]); [by left | by right].
    + cbn [fst]. destruct (quit d); [| done]. intros [= <-]. split; [done | by right].
  - rewrite (run_not_created _ _ _ Hd). intros [= <-]. split; [done | by right].
Qed.

(** The results of [run_all], up to the order of completion. *)
Lemma run_all_results (browsers : list BrowserConfig) (envs : nat → Env)
    (as_completed : list Future → list Future) :
  (∀ futures, as_completed futures ≡ₚ futures) →
  ∃ results,
    run_all browsers envs as_completed = Ok results
    ∧ results ≡ₚ imap (result_for envs) browsers.
Proof.
  intros Hperm. unfold run_all.
  rewrite (collect_settles _ _ []).
  - eexists. split; [done |]. simpl.
    by rewrite Hperm, settle_submitted.
  - rewrite Hperm. apply submitted_named.
Qed.

Lemma result_for_browser (envs : nat → Env) (i : nat) (b : BrowserConfig) :
  browser (result_for envs i b) = name b.
Proof.
  unfold result_for.
  destruct (run_single_browser (envs i) b).1 as [r|e] eqn:Hr; [| done].
  by apply run_returned in Hr as [? _].
Qed.

Lemma result_for_passed (envs : nat → Env) (i : nat) (b : BrowserConfig) :
  status (result_for envs i b) = "passed"
  ↔ passed (run_single_browser (envs i) b).1.
Proof.
  unfold result_for, passed.
  destruct (run_single_browser (envs i) b).1 as [r|e]; simpl.
  - split; [by eauto |]. by intros (? & [= <-] & ?).
  - split; [done |]. by intros (? & ? & ?).
Qed.

Lemma filter_all_length {A} (P : A → Prop) `{!∀ x, Decision (P x)} (l : list A) :
  length (filter P l) = length l ↔ Forall P l.
Proof.
  induction l as [|x l IH]; [by split |].
  rewrite filter_cons, Forall_cons. case_decide as Hx; simpl.
  - rewrite <- IH. split; [intros [= ?]; by split | intros [_ ?]; by f_equal].
  - split; [| by intros [? _]].
    pose proof (length_filter P l). lia.
Qed.

Lemma passed_count_all (envs : nat → Env) (browsers : list BrowserConfig)
    (results : list RunResult) :
  results ≡ₚ imap (result_for envs) browsers →
  passed_count results = length results
  ↔ ∀ i b, browsers !! i = Some b → passed (run_single_browser (envs i) b).1.
Proof.
  intros Hres. unfold passed_count. rewrite filter_all_length, Hres.
  rewrite Forall_forall. split.
  - intros Hall i b Hb. apply result_for_passed, Hall.
    apply elem_of_lookup_imap. by exists i, b.
  - intros Hall r (i & b & -> & Hb)%elem_of_lookup_imap.
    by apply result_for_passed, Hall.
Qed.

Lemma escape_quotes_escaped (s : string) :
  ∀ b, quotes_escaped_from b (escape_quotes s) = true.
Proof.
  induction s as [|c s IH]; intros b; simpl; [done |].
  case_bool_decide as Hc; simpl.
  - by rewrite IH.
  - rewrite bool_decide_false by done. apply IH.
Qed.

Lemma escape_quotes_id (s : string) :
  has_quote s = false → escape_quotes s = s.
Proof.
  unfold has_quote. intros Hq%bool_decide_eq_false.
  induction s as [|c s IH]; simpl; [done |].
  simpl in Hq. rewrite not_elem_of_cons in Hq. destruct Hq as [Hc Hs].
  rewrite bool_decide_false by done. by rewrite IH.
Qed.

End runner_more_facts.

Module runner_more.
Import Py scraper browserstack_runner runner_spec runner_facts
  orchestrator_facts translator analyzer analyzer_facts runner_more_spec
  runner_more_facts examples examples_more.

(** X14. [run_single_browser] never reports "error": when it returns, the
    result carries the target's name and the status "passed" or "failed",
    and, if a session was created, that status and reason are the ones sent
    to the session. It raises only when closing the session raises. *)
Theorem run_single_browser_result (env : Env) (browser_config : BrowserConfig) :
  match (run_single_browser env browser_config).1 with
  | Ok r =>
      browser r = name browser_config
      ∧ (status r = "passed" ∨ status r = "failed")
      ∧ (raised (create_driver env browser_config) = false →
         ExecuteScript (status_script (status r) (reason r))
         ∈ (run_single_browser env browser_config).2)
  | Raise e =>
      ∃ d, create_driver env browser_config = Ok d ∧ quit d = Raise e
  end.
Proof.
  destruct (create_driver env browser_config) as [d|e] eqn:Hd.
  - rewrite (run_created _ _ _ Hd).
    destruct (verdict env (scrape_articles (world env) d 5))
      as [[st rs] steps] eqn:Hv.
    cbn [fst snd].
    assert (Hst : st = "passed" ∨ st = "failed").
    { unfold verdict in Hv.
      destruct (scrape_articles (world env) d 5) as [[|a l]|e];
        [| destruct (find_repeated_words_of _) |]; injection Hv as <- <- <-;
        by (left + right). }
    destruct (quit d) as [[]|e] eqn:Hq; [| by exists d].
    split; [done |]. split; [done |]. intros _. simpl.
    do 2 right. apply elem_of_app. right. by left.
  - rewrite (run_not_created _ _ _ Hd). cbn [fst snd].
    split; [done |]. split; [by right | done].
Qed.

(** X15. A run comes back "passed" exactly when a session was created, at
    least one article was scraped, the analysis of the translated titles
    raised nothing and closing the session raised nothing. A failing status
    notification does not matter. *)
Theorem run_single_browser_passed (env : Env) (browser_config : BrowserConfig) :
  passed (run_single_browser env browser_config).1
  ↔ ∃ d a l repeated,
      create_driver env browser_config = Ok d
      ∧ scrape_articles (world env) d 5 = Ok (a :: l)
      ∧ find_repeated_words_of (english_titles env (a :: l)) = Ok repeated
      ∧ quit d = Ok tt.
Proof.
  unfold passed. split.
  - intros (r & Hr & Hp).
    destruct (create_driver env browser_config) as [d|e] eqn:Hd.
    + rewrite (run_created _ _ _ Hd) in Hr.
      destruct (scrape_articles (world env) d 5) as [[|a l]|e] eqn:Hs;
        cbn [verdict] in Hr.
      * cbn [fst] in Hr. destruct (quit d); [| done].
        injection Hr as <-. done.
      * destruct (find_repeated_words_of _) as [repeated|e] eqn:Ha;
          cbn [fst] in Hr.
        -- destruct (quit d) as [[]|e] eqn:Hq; [| done].
           by exists d, a, l, repeated.
        -- destruct (quit d); [| done]. injection Hr as <-. done.
      * cbn [fst] in Hr. destruct (quit d); [| done].
        injection Hr as <-. done.
    + rewrite (run_not_created _ _ _ Hd) in Hr. injection Hr as <-. done.
  - intros (d & a & l & repeated & Hd & Hs & Ha & Hq).
    rewrite (run_created _ _ _ Hd), Hs. cbn [verdict]. rewrite Ha, Hq.
    by eexists.
Qed.



(** X17. When no session can be created, [run_single_browser] neither sends
    a status nor closes anything, does not raise, and returns "failed" with
    the message of the exception as its reason. *)
Theorem run_without_session (env : Env) (browser_config : BrowserConfig)
    (e : string) :
  create_driver env browser_config = Raise e →
  (run_single_browser env browser_config).1
  = Ok {| browser := name browser_config; status := "failed"; reason := e |}
  ∧ Forall (λ ev, is_session_call ev = false)
      (run_single_browser env browser_config).2.
Proof.
  intros Hd. rewrite (run_not_created _ _ _ Hd). split; [done |].
  by repeat constructor.
Qed.

Lemma run_without_session_witness :
  create_driver env_refusing chrome = Raise "SessionNotCreatedException"
  ∧ create_driver env_refusing phone_without_device = Raise "'deviceName'"
  ∧ (run_single_browser env_refusing phone_without_device).1
    = Ok {| browser := "Some phone"; status := "failed";
            reason := "'deviceName'" |}.
Proof.
  split; [reflexivity |]. split; [reflexivity |].
  exact (proj1 (run_without_session env_refusing phone_without_device
                  "'deviceName'" eq_refl)).
Defined.

(** X18. [create_driver] fails before reaching the hub exactly for a mobile
    target without [deviceName] or without [osVersion], with the [KeyError]
    of the first missing key; a desktop target always gets a payload, a
    missing [os] or [osVersion] being sent as the empty string and a
    missing [browserVersion] as "latest". The credentials are always part
    of the payload. *)
Theorem create_driver_missing_keys (user key : string)
    (browser_config : BrowserConfig) :
  let opts := bstack_options browser_config in
  match bstack_caps user key browser_config with
  | Raise e =>
      is_mobile browser_config = true
      ∧ ((opts !! "deviceName" = None ∧ e = "'deviceName'")
         ∨ (is_Some (opts !! "deviceName") ∧ opts !! "osVersion" = None
            ∧ e = "'osVersion'"))
  | Ok caps =>
      caps !! "userName" = Some user
      ∧ caps !! "accessKey" = Some key
      ∧ caps !! "sessionName" = Some (default "" (opts !! "sessionName"))
      ∧ caps !! "buildName" = Some (default "" (opts !! "buildName"))
      ∧ (if is_mobile browser_config
         then caps !! "deviceName" = opts !! "deviceName"
              ∧ caps !! "osVersion" = opts !! "osVersion"
              ∧ is_Some (opts !! "deviceName") ∧ is_Some (opts !! "osVersion")
         else caps !! "os" = Some (default "" (opts !! "os"))
              ∧ caps !! "osVersion" = Some (default "" (opts !! "osVersion"))
              ∧ caps !! "browserVersion"
                = Some (default "latest" (opts !! "browserVersion")))
  end.
Proof.
  intros opts. unfold bstack_caps, getitem. fold opts.
  destruct (is_mobile browser_config); simpl.
  - destruct (opts !! "deviceName") as [dev|]; simpl;
      [| split; [done |]; by left].
    destruct (opts !! "osVersion") as [ver|]; simpl.
    + split_and!; try done; try (by eexists);
        by repeat (rewrite lookup_insert_ne by done
                   || rewrite lookup_insert_eq
                   || rewrite lookup_singleton_eq).
    + split; [done |]. right. split_and!; [by eexists | done..].
  - split_and!; try done;
      by repeat (rewrite lookup_insert_ne by done
                 || rewrite lookup_insert_eq
                 || rewrite lookup_singleton_eq).
Qed.

(** X19. In the script sent to the session every double quote of the reason
    comes right after a backslash, and a reason without double quotes is
    sent unchanged. *)
Theorem escape_quotes_spec (reason : string) :
  quotes_escaped_from false (escape_quotes reason) = true
  ∧ (has_quote reason = false → escape_quotes reason = reason).
Proof.
  split; [apply escape_quotes_escaped | apply escape_quotes_id].
Qed.

(** X20. The results of [run_all_browsers] can be told apart by name: the
    names in the results are the names of the targets, each as often as it
    is configured, whether the worker returned or raised. *)
Theorem run_all_names (browsers : list BrowserConfig) (envs : nat → Env)
    (as_completed : list Future → list Future) :
  (∀ futures, as_completed futures ≡ₚ futures) →
  ∃ results,
    run_all browsers envs as_completed = Ok results
    ∧ browser <$> results ≡ₚ name <$> browsers.
Proof.
  intros (results & Hrun & Hres)%(run_all_results browsers envs).
  exists results. split; [done |]. rewrite Hres, fmap_imap.
  rewrite <- (imap_const name).
  rewrite (imap_ext _ (const name) browsers); [done |].
  intros i b _. simpl. by rewrite result_for_browser.
Qed.

Lemma run_all_names_witness :
  let envs := λ i : nat,
    match i with
    | 0 => env_of (driver_of site (Ok tt) (Raise "session lost"))
    | _ => env_refusing
    end in
  (∀ futures : list Future, reverse futures ≡ₚ futures)
  ∧ ∃ results,
      run_all_browsers envs reverse = Ok results
      ∧ browser <$> results ≡ₚ name <$> BROWSERS.
Proof.
  intros envs. split; [intros futures; apply reverse_Permutation |].
  exact (run_all_names BROWSERS envs reverse
           (λ futures, reverse_Permutation futures)).
Defined.

End runner_more.

(** ** main.py *)

Module main_facts.
Import Py scraper browserstack_runner runner_spec runner_more_spec
  runner_more_facts scraper_more_spec scraper_records_facts main.

Ltac run_traced :=
  unfold run_local, run_local_stmt, local_pipeline, finally, invoke,
    mbind, Traced_bind, mret, Traced_ret; simpl.

(** A local run in which the browser started and the window was maximized. *)
Lemma run_local_started (env : LocalEnv) (d : WebDriver) :
  Chrome env = Ok d →
  maximize_window env = Ok tt →
  ∃ calls,
    run_local env
    = (match quit d with
       | Ok _ => local_outcome env d
       | Raise e => Raise e
       end,
       [StartChrome; MaximizeWindow] ++ calls ++ [QuitDriver])
    ∧ closings calls = 0.
Proof.
  intros Hd Hm. run_traced. rewrite Hd, Hm. simpl. unfold local_outcome.
  destruct (scrape_articles (local_world env) d 5) as [[|a l]|e]; simpl.
  - exists [Scrape]. split; [| done]. by destruct (quit d) as [[]|e].
  - destruct (analyzer.find_repeated_words_of _) as [rep|e]; simpl;
      (eexists [Scrape; Translate _; Analyze _]; split; [| done]);
      by destruct (quit d) as [[]|e'].
  - exists [Scrape]. split; [| done]. by destruct (quit d) as [[]|e'].
Qed.

Lemma closings_app (c c' : list Call) : closings (c ++ c') = closings c + closings c'.
Proof. unfold closings. by rewrite filter_app, length_app. Qed.

(** A line that starts with a count is not the line of full success. *)
Lemma count_line_differs (p n : nat) :
  pretty p +:+ "/" +:+ pretty n +:+ " browsers passed." ≠ "All browsers passed!".
Proof.
  pose proof (pretty_nat_digits p) as Hp.
  destruct (pretty p) as [|c s]; simpl; [done |].
  simpl in Hp. apply andb_true_iff in Hp as [Hc _].
  intros [= -> _]. done.
Qed.

End main_facts.

Module main_props.
Import Py scraper browserstack_runner runner_spec runner_more_spec
  runner_more_facts main main_facts examples examples_more.

(** X21. [run_local] closes the browser exactly once, as its last call,
    whenever the browser started and the window was maximized: after a
    normal end, after the early return on an empty scrape, and after an
    exception of the scrape or of the analysis, which then reaches the
    caller (unless closing raises itself). When maximizing the window
    raises, the browser is never closed. *)
Theorem run_local_closes (env : LocalEnv) (d : WebDriver) :
  Chrome env = Ok d →
  (maximize_window env = Ok tt →
   ∃ before,
     (run_local env).2 = before ++ [QuitDriver]
     ∧ closings before = 0
     ∧ (run_local env).1 = match quit d with
                           | Ok _ => local_outcome env d
                           | Raise e => Raise e
                           end)
  ∧ (∀ e, maximize_window env = Raise e →
          (run_local env).1 = Raise e ∧ closings (run_local env).2 = 0).
Proof.
  intros Hd. split.
  - intros Hm. destruct (run_local_started env d Hd Hm) as (calls & -> & Hc).
    exists ([StartChrome; MaximizeWindow] ++ calls). split_and!.
    + by rewrite <- (assoc_L (++)).
    + by rewrite closings_app, Hc.
    + done.
  - intros e Hm. run_traced. by rewrite Hd, Hm.
Qed.

Lemma run_local_closes_witness :
  Chrome (local_env_of offline_driver (Ok tt)) = Ok offline_driver
  ∧ run_local (local_env_of offline_driver (Ok tt))
    = (Raise "WebDriverException",
       [StartChrome; MaximizeWindow; Scrape; QuitDriver])
  ∧ closings
      (run_local (local_env_of offline_driver (Raise "no window"))).2 = 0.
Proof.
  split; [reflexivity |]. split; [reflexivity |].
  exact (proj2 (proj2 (run_local_closes
           (local_env_of offline_driver (Raise "no window")) offline_driver
           eq_refl) "no window" eq_refl)).
Defined.

(** X22. [run_browserstack] prints "All browsers passed!" exactly when the
    run of every configured target came back "passed"; a target whose
    worker raised, or failed, makes it print the count of passed targets
    instead. *)
Theorem run_browserstack_all_passed (envs : nat → Env)
    (as_completed : list Future → list Future) :
  (∀ futures, as_completed futures ≡ₚ futures) →
  ∃ line,
    run_browserstack envs as_completed = Ok line
    ∧ (line = String (ascii_of_nat 10) "All browsers passed!"
       ↔ ∀ i b, BROWSERS !! i = Some b →
                passed (run_single_browser (envs i) b).1).
Proof.
  intros (results & Hrun & Hres)%(run_all_results BROWSERS envs).
  unfold run_browserstack, run_all_browsers. rewrite Hrun. simpl.
  eexists. split; [done |].
  rewrite <- (passed_count_all envs BROWSERS results Hres).
  destruct (passed_count results =? length results)%nat eqn:Hc.
  - apply Nat.eqb_eq in Hc. by split.
  - apply Nat.eqb_neq in Hc. split; [| done].
    intros [= Hline]. by apply count_line_differs in Hline.
Qed.

Lemma run_browserstack_all_passed_witness :
  let envs := λ _ : nat, env_of (driver_of site (Ok tt) (Ok tt)) in
  (∀ futures : list Future, reverse futures ≡ₚ futures)
  ∧ run_browserstack envs reverse
    = Ok (String (ascii_of_nat 10) "All browsers passed!")
  ∧ ∃ line,
      run_browserstack
        (λ i, match i with
              | 3 => env_refusing
              | _ => env_of (driver_of site (Ok tt) (Ok tt))
              end) reverse = Ok line
      ∧ line = String (ascii_of_nat 10) "4/5 browsers passed.".
Proof.
  intros envs. split; [intros futures; apply reverse_Permutation |].
  split; [by vm_compute |].
  destruct (run_browserstack_all_passed
              (λ i, match i with
                    | 3 => env_refusing
                    | _ => env_of (driver_of site (Ok tt) (Ok tt))
                    end) reverse (λ futures, reverse_Permutation futures))
    as (line & Hline & _).
  exists line. split; [exact Hline |].
  vm_compute in Hline. by injection Hline as <-.
Defined.

End main_props.
